(** * Verification of the Gutenberg corpus downloader

    Shallow embedding of [src/ingestion/gutenberg_downloader.py]:
    the curated catalog, the prefix classifier [get_genre], the retrying
    fetcher [download_book] and the batch loop [download_curated_corpus].

    The interpreter state that the Python code mutates (the files under the
    output directory, the requests sent, the calls to [time.sleep]) is an
    explicit [world] value passed through every function. *)

From Stdlib Require Import QArith.
From stdpp Require Import gmap strings pretty list.

Open Scope string_scope.
Open Scope list_scope.
Open Scope Z_scope.

(** ** Catalog (module constants) *)

Module Catalog.

(** [CURATED_BOOKS]: a dict literal, iterated in insertion order. *)
Definition CURATED_BOOKS : list (string * Z) :=
  [ ("hugo_miserables_t1", 17489);
    ("hugo_miserables_t2", 17493);
    ("hugo_notre_dame", 2610);
    ("flaubert_bovary", 14155);
    ("flaubert_education", 14156);
    ("stendhal_rouge_noir", 798);
    ("zola_germinal", 5711);
    ("zola_assommoir", 8600);
    ("zola_nana", 5765);
    ("zola_bete_humaine", 14553);
    ("balzac_pere_goriot", 5090);
    ("balzac_illusions", 13159);
    ("dumas_monte_cristo_t1", 17989);
    ("dumas_monte_cristo_t2", 17990);
    ("dumas_trois_mousquetaires", 13951);
    ("maupassant_bel_ami", 3790);
    ("maupassant_contes", 3090);
    ("proust_swann", 7178);
    ("voltaire_candide", 4650);
    ("leroux_fantome_opera", 175);
    ("leroux_chambre_jaune", 13071);
    ("leroux_parfum_dame", 13072);
    ("leblanc_arsene_lupin", 6133);
    ("leblanc_aiguille", 12389);
    ("leblanc_813", 28371);
    ("verne_20000_lieues", 5097);
    ("verne_tour_monde", 800);
    ("verne_voyage_centre", 4791);
    ("verne_ile_mysterieuse", 9080);
    ("verne_5_semaines", 4548);
    ("verne_terre_lune", 799);
    ("maupassant_horla", 14063) ].

(** [GENRES]: prefix to genre, also iterated in insertion order. *)
Definition GENRES : list (string * string) :=
  [ ("hugo", "litterature_generale");
    ("flaubert", "litterature_generale");
    ("stendhal", "litterature_generale");
    ("zola", "litterature_generale");
    ("balzac", "litterature_generale");
    ("dumas", "litterature_generale");
    ("maupassant_bel", "litterature_generale");
    ("maupassant_contes", "litterature_generale");
    ("proust", "litterature_generale");
    ("voltaire", "litterature_generale");
    ("leroux", "thriller_policier");
    ("leblanc", "thriller_policier");
    ("verne", "fantasy_sf");
    ("maupassant_horla", "fantasy_sf") ].

(** The [for prefix, genre in GENRES.items()] loop of [get_genre]:
    the first prefix that [book_key] starts with decides. *)
Fixpoint first_match (table : list (string * string)) (book_key : string)
  : option string :=
  match table with
  | [] => None
  | (prefix, genre) :: table' =>
      if String.prefix prefix book_key then Some genre
      else first_match table' book_key
  end.

Definition get_genre (book_key : string) : string :=
  match first_match GENRES book_key with
  | Some genre => genre
  | None => "litterature_generale"
  end.

End Catalog.
Export Catalog.

(** ** The world the downloader acts on *)

Definition bytes := list Byte.byte.

(** What one [urlopen(req, timeout=30)] followed by [response.read()] can
    yield, by the cases the [try] statement of [download_book] tells apart:
    the body read, or one of the exceptions it catches.  An exception of any
    other class is caught nowhere in the module and ends the program; the
    server of this model does not raise one. *)
Inductive response :=
  | Body (content : bytes)
  | HTTPError (code : Z)
  | URLError
  | TimeoutError.

(** Observable actions, in the order they happen. *)
Inductive event :=
  | Request (url : string)
  | Backoff (wait : Z)                      (* [time.sleep(wait)] in [download_book] *)
  | Courtesy (delay : Q)                    (* [time.sleep(delay)] in the batch loop *)
  | WriteBytes (path : string) (content : bytes).

(** [files]: the file system, path to content.
    [remote]: the answer of the server to the [n]-th request ever sent, for
    the URL asked.  [sent]: number of requests sent so far.
    [trace]: everything done so far. *)
Record world := World {
  files : gmap string bytes;
  remote : string → nat → response;
  sent : nat;
  trace : list event
}.

Definition emit (e : event) (w : world) : world :=
  World (files w) (remote w) (sent w) (trace w ++ [e]).

Definition urlopen (url : string) (w : world) : response * world :=
  (remote w url (sent w),
   World (files w) (remote w) (S (sent w)) (trace w ++ [Request url])).

Definition write_bytes (path : string) (content : bytes) (w : world) : world :=
  World (<[path := content]> (files w)) (remote w) (sent w)
        (trace w ++ [WriteBytes path content]).

Definition sleep (wait : Z) (w : world) : world := emit (Backoff wait) w.

(** [path.exists()] and [path.stat().st_size] ([None]: no such file). *)
Definition path_exists (path : string) (w : world) : bool :=
  bool_decide (is_Some (files w !! path)).

Definition st_size (path : string) (w : world) : option Z :=
  (λ content, Z.of_nat (length content)) <$> files w !! path.

(** ** Fetcher *)

(** [output_dir / name], as the string [str(...)] gives. *)
Definition path_join (output_dir name : string) : string :=
  output_dir +:+ "/" +:+ name.

Definition GUTENBERG_URL (book_id : Z) : string :=
  "https://www.gutenberg.org/cache/epub/" +:+ pretty book_id +:+ "/pg"
    +:+ pretty book_id +:+ ".txt".

Definition pg_path (output_dir : string) (book_id : Z) : string :=
  path_join output_dir ("pg" +:+ pretty book_id +:+ ".txt").

(** [range(lo, hi)] *)
Definition py_range (lo hi : Z) : list Z :=
  map (λ i, lo + Z.of_nat i) (seq 0 (Z.to_nat (hi - lo))).

(** The tail of the loop body, reached after a caught exception that does
    not return: [if attempt < retries: time.sleep(attempt * 2)]. *)
Definition wait_before_retry (attempt retries : Z) (w : world) : world :=
  if attempt <? retries then sleep (attempt * 2) w else w.

(** The [for attempt in range(1, retries + 1)] loop, over the attempts that
    remain; falling off the end is the final [return None]. *)
Fixpoint attempt_loop (url output_path : string) (retries : Z)
    (attempts : list Z) (w : world) : option string * world :=
  match attempts with
  | [] => (None, w)
  | attempt :: attempts' =>
      let '(r, w1) := urlopen url w in
      match r with
      | Body content =>
          if Z.of_nat (length content) <? 500
          then attempt_loop url output_path retries attempts' w1   (* continue *)
          else (Some output_path, write_bytes output_path content w1)
      | HTTPError code =>
          if code =? 404 then (None, w1)
          else attempt_loop url output_path retries attempts'
                 (wait_before_retry attempt retries w1)
      | URLError | TimeoutError =>
          attempt_loop url output_path retries attempts'
            (wait_before_retry attempt retries w1)
      end
  end.

(** The skip test: [output_path.exists() and output_path.stat().st_size > 1000]. *)
Definition already_downloaded (output_path : string) (w : world) : bool :=
  path_exists output_path w &&
  match st_size output_path w with
  | Some size => 1000 <? size
  | None => false
  end.

Definition download_book (book_id : Z) (output_dir : string) (retries : Z)
    (w : world) : option string * world :=
  let url := GUTENBERG_URL book_id in
  let output_path := pg_path output_dir book_id in
  if already_downloaded output_path w then (Some output_path, w)
  else attempt_loop url output_path retries (py_range 1 (retries + 1)) w.

(** ** Batch orchestrator *)

Record BookMetadata := {
  book_id : Z;
  key : string;
  genre : string;
  file_path : string;
  file_size : Z;
  download_success : bool;
  error : option string
}.

(** The Python truth value of [file_path : str | None]: [None] and the
    empty string are false. *)
Definition truthy_str (s : option string) : bool :=
  match s with Some s => negb (String.eqb s "") | None => false end.

(** [x in l] on a list of strings. *)
Definition py_in (x : string) (l : list string) : bool :=
  existsb (String.eqb x) l.

(** [l[:n]]: a negative [n] counts from the end. *)
Definition slice_to {A} (l : list A) (n : Z) : list A :=
  if n <? 0 then firstn (Z.to_nat (Z.of_nat (length l) + n)) l
  else firstn (Z.to_nat n) l.

(** [enumerate(l, start)] *)
Fixpoint enumerate {A} (start : Z) (l : list A) : list (Z * A) :=
  match l with
  | [] => []
  | x :: l' => (start, x) :: enumerate (start + 1) l'
  end.

(** The selection made before the loop: the catalog, filtered [if genres:],
    then cut [if max_books:].  Both tests are Python truth tests: [None],
    the empty list and [0] are false. *)
Definition books_to_download (max_books : option Z)
    (genres : option (list string)) : list (string * Z) :=
  let books := CURATED_BOOKS in
  let books :=
    match genres with
    | Some ((_ :: _) as genres) =>
        List.filter (λ '(key, bid), py_in (get_genre key) genres) books
    | Some [] | None => books
    end in
  match max_books with
  | Some max_books => if max_books =? 0 then books else slice_to books max_books
  | None => books
  end.

(** The [BookMetadata(...)] expression; [Path(file_path).stat()] raises when
    the file is missing, which is [None] here. *)
Definition make_metadata (key : string) (book_id : Z) (genre : string)
    (file_path : option string) (w : world) : option BookMetadata :=
  size ← (if truthy_str file_path then st_size (default "" file_path) w
          else Some 0);
  Some {| book_id := book_id;
          key := key;
          genre := genre;
          file_path := if truthy_str file_path then default "" file_path else "";
          file_size := size;
          download_success := bool_decide (file_path ≠ None);
          error := if truthy_str file_path then None else Some "Download failed" |}.

Definition courtesy_delay (i total : Z) (delay : Q) (w : world) : world :=
  if (i <? total) && negb (Qle_bool delay 0) then emit (Courtesy delay) w else w.

(** The [for i, (key, book_id) in enumerate(books_to_download, 1)] loop;
    [download_book] is called with its default [retries = 3].  The float
    [delay] is a rational here: it is only compared with 0 and slept. *)
Fixpoint download_loop (output_path : string) (delay : Q) (total : Z)
    (items : list (Z * (string * Z))) (results : list BookMetadata)
    (w : world) : option (list BookMetadata * world) :=
  match items with
  | [] => Some (results, w)
  | (i, (key, book_id)) :: items' =>
      let genre := get_genre key in
      let '(file_path, w1) := download_book book_id output_path 3 w in
      metadata ← make_metadata key book_id genre file_path w1;
      download_loop output_path delay total items' (results ++ [metadata])
        (courtesy_delay i total delay w1)
  end.

(** [download_curated_corpus] up to the end of its loop: the list it returns
    and the world at that point ([None]: an exception escaped).  The report
    that follows (the printed summary, [metadata.json]) does not change the
    returned list; the two sums it prints are [summary_success] and
    [summary_total_size] below. *)
Definition download_curated_corpus (output_dir : string)
    (max_books : option Z) (genres : option (list string)) (delay : Q)
    (w : world) : option (list BookMetadata * world) :=
  let books := books_to_download max_books genres in
  let total := Z.of_nat (length books) in
  download_loop output_dir delay total (enumerate 1 books) [] w.

(** [sum(...)]: starts from [0] and adds from the left. *)
Definition py_sum (l : list Z) : Z := fold_left Z.add l 0.

(** [success = sum(1 for r in results if r.download_success)] *)
Definition summary_success (results : list BookMetadata) : Z :=
  py_sum (map (λ _, 1) (List.filter download_success results)).

(** [total_size = sum(r.file_size for r in results)] *)
Definition summary_total_size (results : list BookMetadata) : Z :=
  py_sum (map file_size results).

(** ** Reference notions the properties are stated against *)

(** The catalog entry an outcome stands for. *)
Definition entry_of (o : BookMetadata) : string * Z := (key o, book_id o).

(** The catalog entries whose genre is in [G], in declaration order, and the
    first [n] of them. *)
Definition catalog_in_genres (G : list string) : list (string * Z) :=
  filter (λ e, get_genre e.1 ∈ G) CURATED_BOOKS.

Definition first_n_of_filtered (G : list string) (n : nat) : list (string * Z) :=
  take n (catalog_in_genres G).

Definition is_write (e : event) : bool :=
  match e with WriteBytes _ _ => true | _ => false end.

(** The waits of a trace, in order. *)
Definition backoffs (t : list event) : list Z :=
  omap (λ e, match e with Backoff s => Some s | _ => None end) t.

(** A caught exception after which the loop goes on: any of the three
    except a 404. *)
Definition transient_error (r : response) : bool :=
  match r with
  | Body _ => false
  | HTTPError code => negb (code =? 404)
  | URLError | TimeoutError => true
  end.

(** What a batch is meant to be: the items are fetched one after the other,
    from item number [i] on, each fetch in the world the previous one (and
    the pause after it) left, and each is recorded as data: the failure
    record after [None], the path and the size of the file after [Some]. *)
Inductive batch (output_dir : string) (delay : Q) (total : Z)
  : Z → world → list (string * Z) → list BookMetadata → world → Prop :=
  | batch_done i w : batch output_dir delay total i w [] [] w
  | batch_failed i w k bid w1 items results w' :
      download_book bid output_dir 3 w = (None, w1) →
      batch output_dir delay total (i + 1) (courtesy_delay i total delay w1)
            items results w' →
      batch output_dir delay total i w ((k, bid) :: items)
            ({| book_id := bid; key := k; genre := get_genre k;
                file_path := ""; file_size := 0;
                download_success := false;
                error := Some "Download failed" |} :: results) w'
  | batch_fetched i w k bid p content w1 items results w' :
      download_book bid output_dir 3 w = (Some p, w1) →
      files w1 !! p = Some content →
      batch output_dir delay total (i + 1) (courtesy_delay i total delay w1)
            items results w' →
      batch output_dir delay total i w ((k, bid) :: items)
            ({| book_id := bid; key := k; genre := get_genre k;
                file_path := p; file_size := Z.of_nat (length content);
                download_success := true;
                error := None |} :: results) w'.

(** The two ways a fetch fails, and the names the design gives them. *)
Inductive failure_kind := NotFound | ExhaustedRetries.

Definition count_succeeded (results : list BookMetadata) : nat :=
  length (List.filter download_success results).

Definition bytes_of_succeeded (results : list BookMetadata) : Z :=
  foldr Z.add 0 (map file_size (List.filter download_success results)).

Definition bytes_of_all (results : list BookMetadata) : Z :=
  foldr Z.add 0 (map file_size results).

(** ** Sample worlds *)

Module Samples.

Definition blank (answer : response) : world :=
  World ∅ (λ _ _, answer) 0 [].

(** Every request is answered 404. *)
Definition never_found : world := blank (HTTPError 404).
(** Every request times out. *)
Definition timing_out : world := blank TimeoutError.
(** Every request is answered with a body of 50, 600 or 2000 bytes. *)
Definition tiny_bodies : world := blank (Body (replicate 50 Byte.x00)).
Definition short_book : world := blank (Body (replicate 600 Byte.x00)).
Definition full_book : world := blank (Body (replicate 2000 Byte.x00)).

Definition url_200 : string := GUTENBERG_URL 200.
Definition pg200 : string := pg_path "data/raw" 200.

(** The world after book 200 was fetched once, from each of the last two. *)
Definition short_book_fetched : world :=
  (download_book 200 "data/raw" 3 short_book).2.
Definition full_book_fetched : world :=
  (download_book 200 "data/raw" 3 full_book).2.

End Samples.
Import Samples.

(** ** The rest of the module *)

(** The genres [main] accepts for [--genres] ([choices=[...]]). *)
Definition GENRE_CHOICES : list string :=
  ["litterature_generale"; "thriller_policier"; "fantasy_sf"].

(** The end of [download_curated_corpus]: once the loop is over the records
    are dumped to [output_path / "metadata.json"] and the list is returned.
    [dump] stands for [json.dump] of the records, indented, as bytes. *)
Definition metadata_path (output_dir : string) : string :=
  path_join output_dir "metadata.json".

Definition download_curated_corpus_report (dump : list BookMetadata → bytes)
    (output_dir : string) (max_books : option Z)
    (genres : option (list string)) (delay : Q) (w : world)
  : option (list BookMetadata * world) :=
  match download_curated_corpus output_dir max_books genres delay w with
  | Some (results, w1) =>
      Some (results, write_bytes (metadata_path output_dir) (dump results) w1)
  | None => None
  end.

(** Readings of a trace. *)
Definition is_request (e : event) : bool :=
  match e with Request _ => true | _ => false end.

Definition courtesies (t : list event) : list Q :=
  omap (λ e, match e with Courtesy d => Some d | _ => None end) t.

(** An answer after which [download_book] tries again when attempts remain:
    an undersized body or a caught error other than a 404. *)
Definition retryable (r : response) : bool :=
  match r with
  | Body content => Z.of_nat (length content) <? 500
  | _ => transient_error r
  end.

(** The world reached by fetching [items] in order from [w], sleeping
    [delay] (when it is positive) after each book that another one follows:
    pauses lie between two books, none comes before the first book or after
    the last. *)
Fixpoint fetch_all_paced (output_dir : string) (delay : Q)
    (items : list (string * Z)) (w : world) : world :=
  match items with
  | [] => w
  | (_, bid) :: rest =>
      let w1 := (download_book bid output_dir 3 w).2 in
      match rest with
      | [] => w1
      | _ :: _ =>
          fetch_all_paced output_dir delay rest
            (if Qle_bool delay 0 then w1 else emit (Courtesy delay) w1)
      end
  end.

(** How many requests of a trace ask for [url]. *)
Definition requests_for (url : string) (t : list event) : nat :=
  length (List.filter
            (λ e, match e with Request u => String.eqb u url | _ => false end) t).

Module MoreSamples.

(** Two timeouts, then a body of 2000 bytes. *)
Definition flaky : world :=
  World ∅ (λ _ n, if (n <? 2)%nat then TimeoutError
                  else Body (replicate 2000 Byte.x00)) 0 [].

(** A connection failure, then 404. *)
Definition late_404 : world :=
  World ∅ (λ _ n, if (n <? 1)%nat then URLError else HTTPError 404) 0 [].

(** Every request is answered 502. *)
Definition bad_gateway : world := blank (HTTPError 502).

(** The world after the first book of the catalog was fetched from a server
    that sends 2000 bytes. *)
Definition first_book_fetched : world :=
  (download_book 17489 "data/raw" 3 full_book).2.

End MoreSamples.
Import MoreSamples.

(** ** The definitions on small inputs *)

Example get_genre_first_match :
  get_genre "maupassant_bel_ami" = "litterature_generale" ∧
  get_genre "maupassant_horla" = "fantasy_sf" ∧
  get_genre "leblanc_813" = "thriller_policier".
Proof. repeat split. Qed.

Example get_genre_fallback : get_genre "camus_etranger" = "litterature_generale".
Proof. reflexivity. Qed.

Example py_range_attempts : py_range 1 (3 + 1) = [1; 2; 3].
Proof. reflexivity. Qed.

Example slice_to_examples :
  slice_to [1; 2; 3] 2 = [1; 2] ∧ slice_to [1; 2; 3] 5 = [1; 2; 3] ∧
  slice_to [1; 2; 3] (-1) = [1; 2] ∧ slice_to [1; 2; 3] (-7) = [].
Proof. repeat split. Qed.

Example pg_path_example : pg_path "data/raw" 17489 = "data/raw/pg17489.txt".
Proof. reflexivity. Qed.

Example two_thrillers :
  books_to_download (Some 2) (Some ["thriller_policier"]) =
    [("leroux_fantome_opera", 175); ("leroux_chambre_jaune", 13071)].
Proof. reflexivity. Qed.

Example fetch_full_book :
  download_book 200 "data/raw" 3 full_book =
    (Some "data/raw/pg200.txt",
     World {[ "data/raw/pg200.txt" := replicate 2000 Byte.x00 ]}
           (remote full_book) 1
           [Request url_200;
            WriteBytes "data/raw/pg200.txt" (replicate 2000 Byte.x00)]).
Proof. vm_compute. reflexivity. Qed.

(** ** Facts about the fetcher *)

Lemma py_range_cons lo hi :
  lo < hi → py_range lo hi = lo :: py_range (lo + 1) hi.
Proof.
  intros Hlt. unfold py_range.
  replace (Z.to_nat (hi - lo)) with (S (Z.to_nat (hi - (lo + 1)))) by lia.
  cbn [seq map]. f_equal; [lia|].
  rewrite <- seq_shift, map_map. apply map_ext. intros i. lia.
Qed.

Lemma py_range_nil lo hi : hi ≤ lo → py_range lo hi = [].
Proof.
  intros Hle. unfold py_range. by replace (Z.to_nat (hi - lo)) with 0%nat by lia.
Qed.

Lemma py_range_length lo hi : length (py_range lo hi) = Z.to_nat (hi - lo).
Proof. unfold py_range. by rewrite length_map, length_seq. Qed.

Lemma path_join_nonempty d n : path_join d n ≠ "".
Proof. unfold path_join. by destruct d. Qed.

Lemma already_downloaded_size p w :
  already_downloaded p w = true ↔ ∃ size, st_size p w = Some size ∧ 1000 < size.
Proof.
  unfold already_downloaded, path_exists, st_size.
  destruct (files w !! p) as [c|] eqn:E; cbn.
  - split.
    + intros H%Z.ltb_lt. eauto.
    + intros (size & [= <-] & H). by apply Z.ltb_lt.
  - split; [done | by intros (? & ? & ?)].
Qed.

(** What any run of the retry loop leaves behind: the server is the same,
    requests and waits are added, and the files change by at most one write,
    the last thing done, of a complete body of at least 500 bytes that the
    server sent; a failed run writes nothing. *)
Lemma attempt_loop_effects url p retries attempts w r w' :
  attempt_loop url p retries attempts w = (r, w') →
  ∃ evs n, forallb (λ e, negb (is_write e)) evs = true ∧
    let w1 := World (files w) (remote w) (sent w + n) (trace w ++ evs) in
    (r = None ∧ w' = w1) ∨
    (∃ content k, r = Some p ∧ remote w url k = Body content ∧
       500 ≤ Z.of_nat (length content) ∧ w' = write_bytes p content w1).
Proof.
  revert w. induction attempts as [|attempt attempts IH]; intros w; cbn.
  - intros [= <- <-]. exists [], 0%nat. split; [done|]. left.
    rewrite app_nil_r, Nat.add_0_r. by destruct w.
  - set (w1 := World _ _ _ _).
    assert (Hstep : ∀ evs2,
      forallb (λ e, negb (is_write e)) evs2 = true →
      attempt_loop url p retries attempts
        (World (files w) (remote w) (S (sent w))
               (trace w ++ Request url :: evs2)) = (r, w') →
      ∃ evs n, forallb (λ e, negb (is_write e)) evs = true ∧
        let w1 := World (files w) (remote w) (sent w + n) (trace w ++ evs) in
        (r = None ∧ w' = w1) ∨
        (∃ content k, r = Some p ∧ remote w url k = Body content ∧
           500 ≤ Z.of_nat (length content) ∧ w' = write_bytes p content w1)).
    { intros evs2 Hw Hrun.
      destruct (IH _ Hrun) as (evs & n & Hw' & Hcase). cbn in Hcase.
      exists (Request url :: evs2 ++ evs), (S n). split.
      { cbn. rewrite forallb_app. by rewrite Hw, Hw'. }
      cbn. replace (sent w + S n)%nat with (S (sent w + n)) by lia.
      replace (trace w ++ Request url :: evs2 ++ evs)
        with ((trace w ++ Request url :: evs2) ++ evs)
        by (by rewrite <- app_assoc).
      destruct Hcase as [[-> ->]|(content & k & -> & Hbody & Hlen & ->)].
      - by left.
      - right. by exists content, k. }
    destruct (remote w url (sent w)) as [content|code| |] eqn:Hresp.
    + destruct (Z.ltb_spec (Z.of_nat (length content)) 500).
      * apply (Hstep []); auto.
      * intros [= <- <-]. exists [Request url], 1%nat. split; [done|].
        right. exists content, (sent w). repeat split; [done..|].
        subst w1. by rewrite Nat.add_1_r.
    + destruct (code =? 404).
      * intros [= <- <-]. exists [Request url], 1%nat. split; [done|].
        left. subst w1. by rewrite Nat.add_1_r.
      * unfold wait_before_retry. destruct (attempt <? retries).
        -- unfold sleep, emit; cbn. rewrite <- app_assoc.
           by apply (Hstep [Backoff (attempt * 2)]).
        -- by apply (Hstep []).
    + unfold wait_before_retry. destruct (attempt <? retries).
      * unfold sleep, emit; cbn. rewrite <- app_assoc.
        by apply (Hstep [Backoff (attempt * 2)]).
      * by apply (Hstep []).
    + unfold wait_before_retry. destruct (attempt <? retries).
      * unfold sleep, emit; cbn. rewrite <- app_assoc.
        by apply (Hstep [Backoff (attempt * 2)]).
      * by apply (Hstep []).
Qed.

Lemma download_book_some id dir retries w p w' :
  download_book id dir retries w = (Some p, w') → p = pg_path dir id.
Proof.
  unfold download_book. destruct (already_downloaded _ w).
  - by intros [= <- <-].
  - intros (evs & n & _ & [[? _]|(? & ? & [= <-] & _)])%attempt_loop_effects; done.
Qed.

(** After a fetch that succeeded, the file it names exists. *)
Lemma download_book_some_exists id dir retries w p w' :
  download_book id dir retries w = (Some p, w') → is_Some (st_size p w').
Proof.
  unfold download_book. destruct (already_downloaded _ w) eqn:E.
  - intros [= <- <-]. apply already_downloaded_size in E as (size & -> & _). eauto.
  - intros (evs & n & _ & [[? _]|(c & k & [= <-] & _ & _ & ->)])%attempt_loop_effects;
      [done|].
    unfold st_size, write_bytes; cbn. rewrite lookup_insert_eq. eauto.
Qed.

Lemma download_book_remote id dir retries w r w' :
  download_book id dir retries w = (r, w') → remote w' = remote w.
Proof.
  unfold download_book. destruct (already_downloaded _ w).
  - by intros [= <- <-].
  - by intros (evs & n & _ & [[_ ->]|(c & k & _ & _ & _ & ->)])%attempt_loop_effects.
Qed.

(** When every answer is an undersized body the loop uses up its attempts,
    one request each, and nothing else happens. *)
Lemma attempt_loop_undersized url p retries attempts w :
  (∀ n, ∃ content, remote w url n = Body content ∧
                   Z.of_nat (length content) < 500) →
  attempt_loop url p retries attempts w =
    (None, World (files w) (remote w) (sent w + length attempts)
                 (trace w ++ replicate (length attempts) (Request url))).
Proof.
  intros Hsmall. revert w Hsmall.
  induction attempts as [|attempt attempts IH]; intros w Hsmall; cbn.
  - rewrite app_nil_r, Nat.add_0_r. by destruct w.
  - destruct (Hsmall (sent w)) as (content & -> & Hlen).
    destruct (Z.ltb_spec (Z.of_nat (length content)) 500); [|lia].
    rewrite IH by done. cbn.
    rewrite <- app_assoc. do 2 f_equal. f_equal. lia.
Qed.

(** When every answer is a caught error other than a 404, each attempt but
    the one numbered [retries] is followed by a wait of twice its number. *)
Lemma attempt_loop_transient url p retries attempts w :
  (∀ n, transient_error (remote w url n) = true) →
  ∃ w', attempt_loop url p retries attempts w = (None, w') ∧
        files w' = files w ∧
        sent w' = (sent w + length attempts)%nat ∧
        backoffs (trace w') =
          backoffs (trace w) ++
          map (λ k, k * 2) (List.filter (λ k, k <? retries) attempts).
Proof.
  intros Herr. revert w Herr.
  induction attempts as [|attempt attempts IH]; intros w Herr; cbn.
  - exists w. rewrite app_nil_r. repeat split; lia.
  - specialize (Herr (sent w)) as Hnow.
    assert (Hgo : ∃ w', attempt_loop url p retries attempts
                (wait_before_retry attempt retries
                   (World (files w) (remote w) (S (sent w))
                          (trace w ++ [Request url]))) = (None, w') ∧
              files w' = files w ∧
              sent w' = (sent w + S (length attempts))%nat ∧
              backoffs (trace w') =
                backoffs (trace w) ++
                map (λ k, k * 2)
                  (if attempt <? retries
                   then attempt :: List.filter (λ k, k <? retries) attempts
                   else List.filter (λ k, k <? retries) attempts)).
    { unfold wait_before_retry.
      destruct (attempt <? retries);
        (edestruct IH as (w' & -> & Hf & Hs & Hb); [exact Herr|]);
        exists w'; cbn in *; (repeat split; [done|lia|]); rewrite Hb;
        unfold backoffs; rewrite ?omap_app; cbn;
        rewrite ?app_nil_r, <- ?app_assoc; done. }
    destruct (remote w url (sent w)) as [content|code| |]; cbn in Hnow;
      [done| |exact Hgo..].
    destruct (code =? 404); [done|exact Hgo].
Qed.

(** ** The fetcher: skip, short circuit, exhaustion, writes *)

(** C3, as amended.  When the destination file exists and holds more than
    1000 bytes, [download_book] returns its path at once and leaves the world
    as it was: no request is sent, nothing is slept or written.  Hence, when
    that world is the one a prior successful fetch left, fetching again sends
    no request and returns the same path. *)
Theorem skip_when_already_downloaded id dir retries w content :
  files w !! pg_path dir id = Some content →
  1000 < Z.of_nat (length content) →
  download_book id dir retries w = (Some (pg_path dir id), w) ∧
  ∀ retries0 w0 p,
    download_book id dir retries0 w0 = (Some p, w) →
    download_book id dir retries w = (Some p, w).
Proof.
  intros Hfile Hsize.
  assert (Hskip : already_downloaded (pg_path dir id) w = true).
  { apply already_downloaded_size. exists (Z.of_nat (length content)).
    split; [|done]. unfold st_size. by rewrite Hfile. }
  assert (Hrun : download_book id dir retries w = (Some (pg_path dir id), w)).
  { unfold download_book. by rewrite Hskip. }
  split; [done|]. intros retries0 w0 p Hprior.
  by rewrite (download_book_some _ _ _ _ _ _ Hprior).
Qed.

Lemma skip_when_already_downloaded_witness :
  download_book 200 "data/raw" 3 full_book_fetched
    = (Some pg200, full_book_fetched) ∧
  ∀ retries0 w0 p,
    download_book 200 "data/raw" retries0 w0 = (Some p, full_book_fetched) →
    download_book 200 "data/raw" 3 full_book_fetched = (Some p, full_book_fetched).
Proof.
  apply (skip_when_already_downloaded 200 "data/raw" 3 full_book_fetched
           (replicate 2000 Byte.x00)).
  - reflexivity.
  - vm_compute. reflexivity.
Defined.

(** C3, the claim as stated fails: a fetch that succeeded with a body of 600
    bytes leaves a file below the skip threshold, and the next fetch of the
    same book sends a request. *)
Lemma short_book_is_fetched_again :
  download_book 200 "data/raw" 3 short_book = (Some pg200, short_book_fetched) ∧
  files short_book_fetched !! pg200 = Some (replicate 600 Byte.x00) ∧
  sent short_book_fetched = 1%nat ∧
  ∃ w2, download_book 200 "data/raw" 3 short_book_fetched = (Some pg200, w2) ∧
        sent w2 = 2%nat ∧
        trace w2 = trace short_book_fetched ++
                   [Request url_200; WriteBytes pg200 (replicate 600 Byte.x00)].
Proof.
  repeat split; [vm_compute; reflexivity..|].
  eexists. repeat split; vm_compute; reflexivity.
Qed.

(** C4.  When the file is not already there, at least one attempt is allowed
    and the server answers every request for the book with a 404,
    [download_book] sends exactly one request, does not wait, writes nothing
    and returns [None]. *)
Theorem not_found_short_circuit id dir retries w :
  already_downloaded (pg_path dir id) w = false →
  0 < retries →
  (∀ n, remote w (GUTENBERG_URL id) n = HTTPError 404) →
  download_book id dir retries w =
    (None, World (files w) (remote w) (S (sent w))
                 (trace w ++ [Request (GUTENBERG_URL id)])).
Proof.
  intros Hnew Hretries Hgone. unfold download_book. rewrite Hnew.
  rewrite py_range_cons by lia. cbn. by rewrite Hgone.
Qed.

Lemma not_found_short_circuit_witness :
  download_book 200 "data/raw" 3 never_found =
    (None, World ∅ (remote never_found) 1 [Request url_200]).
Proof.
  apply (not_found_short_circuit 200 "data/raw" 3 never_found).
  - reflexivity.
  - lia.
  - intros n. reflexivity.
Defined.

(** C6.  When the file is not already there and every answer is a body of
    fewer than 500 bytes, [download_book] sends exactly [retries] requests,
    leaves the files as they were and returns [None]. *)
Theorem undersized_bodies_exhaust_retries id dir retries w :
  already_downloaded (pg_path dir id) w = false →
  0 ≤ retries →
  (∀ n, ∃ content, remote w (GUTENBERG_URL id) n = Body content ∧
                   Z.of_nat (length content) < 500) →
  ∃ w', download_book id dir retries w = (None, w') ∧
        Z.of_nat (sent w') = Z.of_nat (sent w) + retries ∧
        files w' = files w ∧
        trace w' = trace w ++
                   replicate (Z.to_nat retries) (Request (GUTENBERG_URL id)).
Proof.
  intros Hnew Hretries Hsmall. unfold download_book. rewrite Hnew.
  rewrite attempt_loop_undersized by done. eexists. split; [done|]. cbn.
  rewrite py_range_length.
  replace (Z.to_nat (retries + 1 - 1)) with (Z.to_nat retries) by lia.
  repeat split. lia.
Qed.

Lemma undersized_bodies_exhaust_retries_witness :
  ∃ w', download_book 200 "data/raw" 3 tiny_bodies = (None, w') ∧
        Z.of_nat (sent w') = Z.of_nat (sent tiny_bodies) + 3 ∧
        files w' = files tiny_bodies ∧
        trace w' = trace tiny_bodies ++ replicate (Z.to_nat 3) (Request url_200).
Proof.
  apply (undersized_bodies_exhaust_retries 200 "data/raw" 3 tiny_bodies).
  - reflexivity.
  - lia.
  - intros n. exists (replicate 50 Byte.x00). split; [reflexivity|]. cbn. lia.
Defined.

(** C8.  Whatever the server answers, [download_book] ends in one of three
    ways.  It failed: the files are as they were and nothing was written.
    It skipped: a file of more than 1000 bytes was there and the world is
    untouched.  It succeeded: the only write is the last action, it stores at
    the destination one complete body that the server sent and that passed
    the 500 byte check. *)
Theorem writes_only_on_success id dir retries w r w' :
  download_book id dir retries w = (r, w') →
  ∃ evs, forallb (λ e, negb (is_write e)) evs = true ∧
    ((r = None ∧ files w' = files w ∧ trace w' = trace w ++ evs) ∨
     (r = Some (pg_path dir id) ∧
      already_downloaded (pg_path dir id) w = true ∧ w' = w) ∨
     (∃ content k,
        r = Some (pg_path dir id) ∧
        already_downloaded (pg_path dir id) w = false ∧
        remote w (GUTENBERG_URL id) k = Body content ∧
        500 ≤ Z.of_nat (length content) ∧
        files w' = <[pg_path dir id := content]> (files w) ∧
        trace w' = trace w ++ evs ++ [WriteBytes (pg_path dir id) content])).
Proof.
  unfold download_book. destruct (already_downloaded _ w) eqn:Hskip.
  - intros [= <- <-]. exists []. split; [done|]. right; left. done.
  - intros (evs & n & Hquiet & Hcase)%attempt_loop_effects.
    exists evs. split; [done|]. cbn in Hcase.
    destruct Hcase as [[-> ->]|(content & k & -> & Hbody & Hlen & ->)].
    + left. done.
    + right; right. exists content, k. cbn. by rewrite <- app_assoc.
Qed.

Lemma writes_only_on_success_witness :
  ∃ evs, forallb (λ e, negb (is_write e)) evs = true ∧
    ((Some pg200 = None ∧ files short_book_fetched = files short_book ∧
      trace short_book_fetched = trace short_book ++ evs) ∨
     (Some pg200 = Some pg200 ∧
      already_downloaded pg200 short_book = true ∧
      short_book_fetched = short_book) ∨
     (∃ content k,
        Some pg200 = Some pg200 ∧
        already_downloaded pg200 short_book = false ∧
        remote short_book url_200 k = Body content ∧
        500 ≤ Z.of_nat (length content) ∧
        files short_book_fetched = <[pg200 := content]> (files short_book) ∧
        trace short_book_fetched =
          trace short_book ++ evs ++ [WriteBytes pg200 content])).
Proof.
  apply (writes_only_on_success 200 "data/raw" 3 short_book
           (Some pg200) short_book_fetched).
  vm_compute. reflexivity.
Defined.

(** C5, the code at the failing input.  With three attempts allowed and a
    50 byte body every time, the three requests follow one another with no
    wait in between: three timeouts instead are spaced by waits of 2 and 4
    seconds. *)
Theorem undersized_retry_skips_backoff :
  trace (download_book 200 "data/raw" 3 tiny_bodies).2 =
    [Request url_200; Request url_200; Request url_200] ∧
  trace (download_book 200 "data/raw" 3 timing_out).2 =
    [Request url_200; Backoff 2; Request url_200; Backoff 4; Request url_200].
Proof. split; vm_compute; reflexivity. Qed.

(** The waits on the path that does back off: when every answer is a caught
    error other than a 404, the waits are 2, 4, ... up to [2 * (retries - 1)],
    one after each attempt but the last. *)
Lemma transient_errors_back_off id dir retries w :
  already_downloaded (pg_path dir id) w = false →
  (∀ n, transient_error (remote w (GUTENBERG_URL id) n) = true) →
  ∃ w', download_book id dir retries w = (None, w') ∧
        backoffs (trace w') =
          backoffs (trace w) ++ map (λ k, k * 2) (py_range 1 retries).
Proof.
  intros Hnew Herr. unfold download_book. rewrite Hnew.
  destruct (attempt_loop_transient (GUTENBERG_URL id) (pg_path dir id) retries
              (py_range 1 (retries + 1)) w Herr) as (w' & Hrun & _ & _ & Hb).
  exists w'. split; [done|]. rewrite Hb. do 2 f_equal.
  destruct (Z.le_gt_cases retries 0) as [Hle|Hpos].
  { by rewrite !py_range_nil by lia. }
  unfold py_range.
  replace (Z.to_nat (retries + 1 - 1)) with (S (Z.to_nat (retries - 1))) by lia.
  rewrite seq_S, map_app, List.filter_app. cbn.
  replace (1 + Z.of_nat (Z.to_nat (retries - 1)) <? retries) with false
    by (symmetry; apply Z.ltb_ge; lia).
  rewrite app_nil_r. clear -Hpos.
  assert (Hall : ∀ i, In i (seq 0 (Z.to_nat (retries - 1))) →
                      (1 + Z.of_nat i <? retries) = true).
  { intros i Hi%in_seq. apply Z.ltb_lt. lia. }
  induction (seq 0 (Z.to_nat (retries - 1))) as [|i l IH]; [done|].
  cbn. rewrite (Hall i) by (by left). f_equal. apply IH.
  intros j Hj. apply Hall. by right.
Qed.

(** ** Facts about the batch loop *)

(** The loop never raises, and what it appends is a batch. *)
Lemma download_loop_spec dir delay total i items acc w :
  ∃ results w',
    download_loop dir delay total (enumerate i items) acc w
      = Some (acc ++ results, w') ∧
    batch dir delay total i w items results w'.
Proof.
  revert i acc w. induction items as [|[k bid] items IH]; intros i acc w; cbn.
  - exists [], w. rewrite app_nil_r. split; [done|constructor].
  - destruct (download_book bid dir 3 w) as [[p|] w1] eqn:Hfetch;
      unfold make_metadata.
    + assert (Hp : truthy_str (Some p) = true).
      { rewrite (download_book_some _ _ _ _ _ _ Hfetch). cbn.
        apply negb_true_iff, String.eqb_neq, path_join_nonempty. }
      rewrite Hp. change (default "" (Some p)) with p.
      destruct (download_book_some_exists _ _ _ _ _ _ Hfetch) as [size Hsize].
      unfold st_size in *. destruct (files w1 !! p) as [content|] eqn:Hfile;
        [|done]. cbn.
      destruct (IH (i + 1) (acc ++ [
                  {| book_id := bid; key := k; genre := get_genre k;
                     file_path := p; file_size := Z.of_nat (length content);
                     download_success := true; error := None |}])
                  (courtesy_delay i total delay w1))
        as (results & w' & Hloop & Hbatch).
      eexists (_ :: results), w'. rewrite <- app_assoc in Hloop.
      split; [exact Hloop|]. by eapply batch_fetched.
    + cbn.
      destruct (IH (i + 1) (acc ++ [
                  {| book_id := bid; key := k; genre := get_genre k;
                     file_path := ""; file_size := 0;
                     download_success := false;
                     error := Some "Download failed" |}])
                  (courtesy_delay i total delay w1))
        as (results & w' & Hloop & Hbatch).
      eexists (_ :: results), w'. rewrite <- app_assoc in Hloop.
      split; [exact Hloop|]. by eapply batch_failed.
Qed.

Lemma batch_entries dir delay total i w items results w' :
  batch dir delay total i w items results w' → map entry_of results = items.
Proof. induction 1; cbn; by f_equal. Qed.

Lemma batch_failed_size dir delay total i w items results w' :
  batch dir delay total i w items results w' →
  Forall (λ o, download_success o = false → file_size o = 0) results.
Proof. induction 1; constructor; done. Qed.

Lemma fold_left_add l a : fold_left Z.add l a = a + foldr Z.add 0 l.
Proof.
  revert a. induction l as [|x l IH]; intros a; cbn; [lia|]. rewrite IH. lia.
Qed.

Lemma py_sum_foldr l : py_sum l = foldr Z.add 0 l.
Proof. unfold py_sum. by rewrite fold_left_add. Qed.

(** The batch loop run on the selection. *)
Lemma download_curated_corpus_spec dir max_books genres delay w :
  ∃ results w',
    download_curated_corpus dir max_books genres delay w = Some (results, w') ∧
    batch dir delay (Z.of_nat (length (books_to_download max_books genres))) 1 w
          (books_to_download max_books genres) results w'.
Proof.
  unfold download_curated_corpus.
  destruct (download_loop_spec dir delay
              (Z.of_nat (length (books_to_download max_books genres))) 1
              (books_to_download max_books genres) [] w)
    as (results & w' & Hloop & Hbatch).
  by exists results, w'.
Qed.

(** ** The batch: selection, cardinality, failures as data, summary *)

Lemma py_in_elem_of x l : py_in x l = true ↔ x ∈ l.
Proof.
  unfold py_in. rewrite existsb_exists, list_elem_of_In. split.
  - by intros (y & Hy & ->%String.eqb_eq).
  - intros Hx. exists x. split; [done|]. apply String.eqb_refl.
Qed.

Lemma selection_with_both max_books G :
  max_books ≠ 0 → G ≠ [] →
  books_to_download (Some max_books) (Some G) =
    slice_to (catalog_in_genres G) max_books.
Proof.
  intros Hn HG. unfold books_to_download, catalog_in_genres.
  generalize CURATED_BOOKS as books. intros books.
  destruct G as [|g G]; [done|].
  replace (max_books =? 0) with false by (symmetry; by apply Z.eqb_neq).
  f_equal.
  induction books as [|[k bid] books IH]; [done|].
  rewrite filter_cons. cbn [List.filter fst]. rewrite IH.
  destruct (decide (get_genre k ∈ g :: G)) as [Hin|Hout].
  - apply py_in_elem_of in Hin. by rewrite Hin.
  - destruct (py_in (get_genre k) (g :: G)) eqn:Hin; [|done].
    by apply py_in_elem_of in Hin.
Qed.

(** C1, as amended.  For a genre list [G] that is not empty and a maximum
    [N] of at least 1, the run returns one record per entry of the first [N]
    catalog entries, in declaration order, whose genre is in [G]; when [N] is
    at least the number of such entries, that is all of them. *)
Theorem selection_is_prefix_of_filtered_catalog dir N G delay w :
  0 < N → G ≠ [] →
  ∃ results w',
    download_curated_corpus dir (Some N) (Some G) delay w = Some (results, w') ∧
    map entry_of results = first_n_of_filtered G (Z.to_nat N) ∧
    (Z.of_nat (length (catalog_in_genres G)) ≤ N →
     map entry_of results = catalog_in_genres G).
Proof.
  intros HN HG.
  destruct (download_curated_corpus_spec dir (Some N) (Some G) delay w)
    as (results & w' & Hrun & Hbatch).
  exists results, w'. split; [done|].
  apply batch_entries in Hbatch. rewrite Hbatch.
  rewrite selection_with_both by (done || lia).
  unfold slice_to, first_n_of_filtered.
  replace (N <? 0) with false by (symmetry; apply Z.ltb_ge; lia).
  split; [done|]. intros Hall. apply firstn_all2. lia.
Qed.

Lemma selection_is_prefix_of_filtered_catalog_witness :
  ∃ results w',
    download_curated_corpus "data/raw" (Some 2) (Some ["thriller_policier"]) 1
      never_found = Some (results, w') ∧
    map entry_of results = first_n_of_filtered ["thriller_policier"] (Z.to_nat 2) ∧
    (Z.of_nat (length (catalog_in_genres ["thriller_policier"])) ≤ 2 →
     map entry_of results = catalog_in_genres ["thriller_policier"]).
Proof.
  apply (selection_is_prefix_of_filtered_catalog "data/raw" 2
           ["thriller_policier"] 1 never_found).
  - lia.
  - discriminate.
Defined.

(** C1, the claim as stated fails: with a maximum of 0 the run does not
    return the first 0 entries of the filtered catalog but a record for each
    of its seven entries. *)
Lemma zero_maximum_selects_everything :
  ∃ results w',
    download_curated_corpus "data/raw" (Some 0) (Some ["fantasy_sf"]) 1
      never_found = Some (results, w') ∧
    map entry_of results =
      [ ("verne_20000_lieues", 5097); ("verne_tour_monde", 800);
        ("verne_voyage_centre", 4791); ("verne_ile_mysterieuse", 9080);
        ("verne_5_semaines", 4548); ("verne_terre_lune", 799);
        ("maupassant_horla", 14063) ] ∧
    catalog_in_genres ["fantasy_sf"] = map entry_of results ∧
    first_n_of_filtered ["fantasy_sf"] 0 = [] ∧
    map entry_of results ≠ first_n_of_filtered ["fantasy_sf"] 0.
Proof.
  do 2 eexists. split; [vm_compute; reflexivity|].
  split; [reflexivity|]. split; [vm_compute; reflexivity|].
  split; [reflexivity|]. discriminate.
Qed.

(** C2.  Every run returns, and returns exactly one record per selected
    catalog entry, in selection order, carrying the key and the identifier of
    its entry; so there are as many records as selected entries, whatever the
    fetches did. *)
Theorem one_outcome_per_selected_entry dir max_books genres delay w :
  ∃ results w',
    download_curated_corpus dir max_books genres delay w = Some (results, w') ∧
    map entry_of results = books_to_download max_books genres ∧
    length results = length (books_to_download max_books genres).
Proof.
  destruct (download_curated_corpus_spec dir max_books genres delay w)
    as (results & w' & Hrun & Hbatch).
  exists results, w'. split; [done|].
  apply batch_entries in Hbatch. split; [done|].
  by rewrite <- Hbatch, length_map.
Qed.

(** C7, as amended.  No run raises: the batch returns, and every item is
    recorded as data.  An item whose fetch returned [None] has
    [download_success = false], an empty path, size 0 and the error
    ["Download failed"], the same whatever made the fetch fail; an item whose
    fetch returned a path has [download_success = true] and no error. *)
Theorem failures_become_data dir max_books genres delay w :
  ∃ results w',
    download_curated_corpus dir max_books genres delay w = Some (results, w') ∧
    batch dir delay (Z.of_nat (length (books_to_download max_books genres))) 1 w
          (books_to_download max_books genres) results w' ∧
    Forall (λ o, if download_success o then error o = None
                 else error o = Some "Download failed") results.
Proof.
  destruct (download_curated_corpus_spec dir max_books genres delay w)
    as (results & w' & Hrun & Hbatch).
  exists results, w'. split; [done|]. split; [done|].
  clear Hrun. induction Hbatch; constructor; done.
Qed.

(** C7, the claim as stated fails: a book that is not found (one request)
    and a book whose retries are exhausted (three requests) are recorded with
    the same error, so no naming of the kinds of failure is what the error
    field holds. *)
Lemma failure_kind_is_not_recorded :
  ∃ o1 w1 o2 w2,
    download_curated_corpus "data/raw" (Some 1) None 1 never_found
      = Some ([o1], w1) ∧
    download_curated_corpus "data/raw" (Some 1) None 1 tiny_bodies
      = Some ([o2], w2) ∧
    sent w1 = 1%nat ∧ sent w2 = 3%nat ∧
    download_success o1 = false ∧ download_success o2 = false ∧
    error o1 = Some "Download failed" ∧ error o2 = Some "Download failed" ∧
    ¬ ∃ label : failure_kind → string,
        label NotFound ≠ label ExhaustedRetries ∧
        error o1 = Some (label NotFound) ∧
        error o2 = Some (label ExhaustedRetries).
Proof.
  do 4 eexists. split; [vm_compute; reflexivity|].
  split; [vm_compute; reflexivity|]. cbn.
  repeat (split; [reflexivity|]).
  intros (label & Hdiff & [= H1] & [= H2]). congruence.
Qed.

(** C9.  On the list a run returns, the success count of the summary is the
    number of records with [download_success], and its total size is the sum
    of the sizes of those records, which is also the sum over all records:
    a failed record has size 0. *)
Theorem summary_consistent dir max_books genres delay w :
  ∃ results w',
    download_curated_corpus dir max_books genres delay w = Some (results, w') ∧
    summary_success results = Z.of_nat (count_succeeded results) ∧
    summary_total_size results = bytes_of_succeeded results ∧
    bytes_of_succeeded results = bytes_of_all results.
Proof.
  destruct (download_curated_corpus_spec dir max_books genres delay w)
    as (results & w' & Hrun & Hbatch).
  exists results, w'. split; [done|].
  apply batch_failed_size in Hbatch. clear Hrun.
  assert (Hsame : bytes_of_succeeded results = bytes_of_all results).
  { unfold bytes_of_succeeded, bytes_of_all.
    induction Hbatch as [|o l Ho _ IH]; cbn; [done|].
    destruct (download_success o); cbn; rewrite IH; [done|].
    rewrite Ho by done. lia. }
  split; [|split; [|done]].
  - unfold summary_success, count_succeeded. rewrite py_sum_foldr.
    induction (List.filter download_success results) as [|o l IH]; cbn; [done|].
    rewrite IH. lia.
  - rewrite Hsame. unfold summary_total_size. by rewrite py_sum_foldr.
Qed.

(** The filter of the selection keeps the entries whose genre is in the list. *)
Lemma genre_filter_elem_of G (books : list (string * Z)) :
  List.filter (λ '(key, bid), py_in (get_genre key) G) books
    = filter (λ e, get_genre e.1 ∈ G) books.
Proof.
  induction books as [|[k bid] books IH]; [done|].
  rewrite filter_cons. cbn [List.filter fst]. rewrite IH.
  destruct (decide (get_genre k ∈ G)) as [Hin|Hout].
  - apply py_in_elem_of in Hin. by rewrite Hin.
  - destruct (py_in (get_genre k) G) eqn:Hin; [|done].
    by apply py_in_elem_of in Hin.
Qed.

(** C10.  A maximum of 0 and an empty genre list are taken as no maximum and
    no genre list.  The run is the run with [None] in their place.  With a
    maximum of 0 nothing is cut: the run fetches and records, in catalog
    order, every entry whose genre is in the list (every entry of the catalog
    when there is no list).  With an empty genre list nothing is filtered
    out: the run fetches and records entries of the whole catalog, all of
    them unless a maximum cuts the catalog itself.  With both, the 32 entries
    of the catalog are fetched and recorded. *)
Theorem zero_and_empty_mean_none dir max_books genres delay w :
  download_curated_corpus dir (Some 0) genres delay w
    = download_curated_corpus dir None genres delay w ∧
  download_curated_corpus dir max_books (Some []) delay w
    = download_curated_corpus dir max_books None delay w ∧
  (∃ results w',
     download_curated_corpus dir (Some 0) genres delay w = Some (results, w') ∧
     map entry_of results =
       match genres with
       | Some ((_ :: _) as G) => catalog_in_genres G
       | Some [] | None => CURATED_BOOKS
       end ∧
     batch dir delay (Z.of_nat (length results)) 1 w
           (map entry_of results) results w') ∧
  (∃ results w',
     download_curated_corpus dir max_books (Some []) delay w
       = Some (results, w') ∧
     map entry_of results =
       match max_books with
       | Some n => if n =? 0 then CURATED_BOOKS else slice_to CURATED_BOOKS n
       | None => CURATED_BOOKS
       end ∧
     batch dir delay (Z.of_nat (length results)) 1 w
           (map entry_of results) results w') ∧
  (∃ results w',
     download_curated_corpus dir (Some 0) (Some []) delay w
       = Some (results, w') ∧
     map entry_of results = CURATED_BOOKS ∧ length results = 32%nat ∧
     batch dir delay 32 1 w CURATED_BOOKS results w').
Proof.
  assert (Hrun : ∀ m g, ∃ results w',
    download_curated_corpus dir m g delay w = Some (results, w') ∧
    map entry_of results = books_to_download m g ∧
    batch dir delay (Z.of_nat (length results)) 1 w
          (map entry_of results) results w').
  { intros m g.
    destruct (download_curated_corpus_spec dir m g delay w)
      as (results & w' & Hrun & Hbatch).
    exists results, w'. split; [done|].
    pose proof (batch_entries _ _ _ _ _ _ _ _ Hbatch) as Hentries.
    split; [done|]. rewrite Hentries.
    replace (length results) with (length (books_to_download m g));
      [done|]. by rewrite <- Hentries, length_map. }
  split; [done|]. split; [done|]. split; [|split].
  - destruct (Hrun (Some 0) genres) as (results & w' & Hsome & Hentries & Hbatch).
    exists results, w'. split; [done|]. split; [|done].
    rewrite Hentries. unfold books_to_download, catalog_in_genres.
    destruct genres as [[|g G]|]; [done| |done].
    cbn [Z.eqb]. apply genre_filter_elem_of.
  - destruct (Hrun max_books (Some [])) as (results & w' & Hsome & Hentries & Hbatch).
    exists results, w'. split; [done|]. split; [|done].
    rewrite Hentries. reflexivity.
  - destruct (Hrun (Some 0) (Some [])) as (results & w' & Hsome & Hentries & Hbatch).
    exists results, w'. split; [done|].
    change (books_to_download (Some 0) (Some [])) with CURATED_BOOKS in Hentries.
    assert (Hlen : length results = 32%nat).
    { by rewrite <- (length_map entry_of), Hentries. }
    split; [done|]. split; [done|].
    rewrite Hentries, Hlen in Hbatch. exact Hbatch.
Qed.

(** * Further properties of the module *)

(** ** The classifier *)

Lemma first_match_some table k g :
  first_match table k = Some g →
  ∃ p, (p, g) ∈ table ∧ String.prefix p k = true.
Proof.
  induction table as [|[p g'] table IH]; cbn; [done|].
  destruct (String.prefix p k) eqn:Hp.
  - intros [= ->]. exists p. split; [left|done].
  - intros (p' & Hin & Hp')%IH. exists p'. split; [by right|done].
Qed.

Lemma first_match_none table k :
  first_match table k = None ↔
  ∀ p g, (p, g) ∈ table → String.prefix p k = false.
Proof.
  induction table as [|[p g'] table IH]; cbn.
  - split; [|done]. intros _ p g Hin. by apply elem_of_nil in Hin.
  - destruct (String.prefix p k) eqn:Hp.
    + split; [done|]. intros Hall. specialize (Hall p g' ltac:(left)). congruence.
    + rewrite IH. split.
      * intros Hall q g [[= -> ->]|Hin]%elem_of_cons; eauto.
      * intros Hall q g Hin. apply (Hall q g). by right.
Qed.

(** Two prefixes of one string: one is a prefix of the other. *)
Lemma prefix_comparable a b k :
  String.prefix a k = true → String.prefix b k = true →
  String.prefix a b = true ∨ String.prefix b a = true.
Proof.
  revert b k. induction a as [|x a IH]; intros b k Ha Hb.
  { left. by destruct b. }
  destruct b as [|y b]; [by right|].
  destruct k as [|z k]; [done|]. cbn in *.
  destruct (Ascii.ascii_dec x z) as [->|]; [|done].
  destruct (Ascii.ascii_dec y z) as [->|]; [|done].
  destruct (Ascii.ascii_dec z z); [|done]. by apply (IH b k).
Qed.

(** In [GENRES], a prefix that extends another one has the same genre. *)
Lemma GENRES_coherent p1 g1 p2 g2 :
  (p1, g1) ∈ GENRES → (p2, g2) ∈ GENRES →
  String.prefix p1 p2 = true → g1 = g2.
Proof.
  assert (Hcheck :
    forallb (λ e1, forallb (λ e2,
      implb (String.prefix e1.1 e2.1) (String.eqb e1.2 e2.2)) GENRES) GENRES
    = true) by reflexivity.
  rewrite forallb_forall in Hcheck.
  intros H1%list_elem_of_In H2%list_elem_of_In Hpre.
  specialize (Hcheck _ H1). rewrite forallb_forall in Hcheck.
  specialize (Hcheck _ H2). cbn in Hcheck. rewrite Hpre in Hcheck.
  by apply String.eqb_eq.
Qed.

Lemma GENRES_in_choices p g : (p, g) ∈ GENRES → g ∈ GENRE_CHOICES.
Proof.
  assert (Hcheck :
    forallb (λ e, existsb (String.eqb e.2) GENRE_CHOICES) GENRES = true)
    by reflexivity.
  rewrite forallb_forall in Hcheck.
  intros Hin%list_elem_of_In. specialize (Hcheck _ Hin). cbn [snd] in Hcheck.
  apply existsb_exists in Hcheck as (g' & Hg' & ->%String.eqb_eq).
  by apply list_elem_of_In.
Qed.

Lemma get_genre_choice key : get_genre key ∈ GENRE_CHOICES.
Proof.
  unfold get_genre. destruct (first_match GENRES key) as [g|] eqn:Hm.
  - apply first_match_some in Hm as (p & Hin & _). by eapply GENRES_in_choices.
  - by left.
Qed.

(** X1.  Whatever the key, [get_genre] answers one of the three genres that
    [--genres] accepts. *)
Theorem get_genre_in_choices key : get_genre key ∈ GENRE_CHOICES.
Proof.
  unfold get_genre. destruct (first_match GENRES key) as [g|] eqn:Hm.
  - apply first_match_some in Hm as (p & Hin & _).
    by apply (GENRES_in_choices p g).
  - by apply py_in_elem_of.
Qed.

(** X2.  The answer does not depend on the order in which [GENRES] is gone
    through: any entry whose prefix the key starts with gives the genre that
    [get_genre] returns. *)
Theorem get_genre_any_matching_prefix key p g :
  (p, g) ∈ GENRES → String.prefix p key = true → get_genre key = g.
Proof.
  intros Hin Hp. unfold get_genre.
  destruct (first_match GENRES key) as [g'|] eqn:Hm.
  - apply first_match_some in Hm as (p' & Hin' & Hp').
    destruct (prefix_comparable p p' key Hp Hp') as [H|H].
    + symmetry. by eapply GENRES_coherent.
    + by eapply GENRES_coherent.
  - rewrite first_match_none in Hm. specialize (Hm p g Hin). congruence.
Qed.

Lemma get_genre_any_matching_prefix_witness :
  get_genre "verne_michel_strogoff" = "fantasy_sf".
Proof.
  apply (get_genre_any_matching_prefix "verne_michel_strogoff" "verne").
  - vm_compute. repeat (first [left | right]). 
  - reflexivity.
Defined.

(** X3.  A key that starts with none of the prefixes of [GENRES] is
    general literature; so a key with another genre starts with one of the
    prefixes listed for that genre. *)
Theorem get_genre_other_than_default key :
  get_genre key ≠ "litterature_generale" →
  ∃ p, (p, get_genre key) ∈ GENRES ∧ String.prefix p key = true.
Proof.
  unfold get_genre. destruct (first_match GENRES key) as [g|] eqn:Hm; [|done].
  intros _. by apply first_match_some.
Qed.

Lemma get_genre_other_than_default_witness :
  ∃ p, (p, get_genre "leblanc_813") ∈ GENRES ∧
       String.prefix p "leblanc_813" = true.
Proof.
  apply (get_genre_other_than_default "leblanc_813").
  intros H. vm_compute in H. discriminate H.
Defined.

(** ** The selection *)

Lemma list_filter_sublist {A} (f : A → bool) l : List.filter f l `sublist_of` l.
Proof.
  induction l as [|x l IH]; cbn; [constructor|].
  destruct (f x); by constructor.
Qed.

Lemma slice_to_sublist {A} (l : list A) n : slice_to l n `sublist_of` l.
Proof. unfold slice_to. destruct (n <? 0); apply sublist_take. Qed.

Lemma slice_to_nil {A} n : slice_to (@nil A) n = [].
Proof. unfold slice_to. destruct (n <? 0); apply firstn_nil. Qed.

Lemma sublist_map {A B} (f : A → B) l1 l2 :
  l1 `sublist_of` l2 → map f l1 `sublist_of` map f l2.
Proof. induction 1; cbn; by constructor. Qed.

Lemma list_filter_all {A} (f : A → bool) l :
  (∀ x, x ∈ l → f x = true) → List.filter f l = l.
Proof.
  induction l as [|x l IH]; intros Hall; cbn; [done|].
  rewrite (Hall x) by left. f_equal. apply IH. intros y Hy. apply Hall. by right.
Qed.

Lemma list_filter_none {A} (f : A → bool) l :
  (∀ x, x ∈ l → f x = false) → List.filter f l = [].
Proof.
  induction l as [|x l IH]; intros Hall; cbn; [done|].
  rewrite (Hall x) by left. apply IH. intros y Hy. apply Hall. by right.
Qed.

Lemma books_to_download_sublist max_books genres :
  books_to_download max_books genres `sublist_of` CURATED_BOOKS.
Proof.
  unfold books_to_download. generalize CURATED_BOOKS as books. intros books.
  assert (Hf : match genres with
               | Some ((_ :: _) as genres) =>
                   List.filter (λ '(key, bid), py_in (get_genre key) genres) books
               | _ => books
               end `sublist_of` books).
  { destruct genres as [[|g G]|]; [done| |done]. apply list_filter_sublist. }
  destruct max_books as [n|]; [|done].
  destruct (n =? 0); [done|]. etrans; [apply slice_to_sublist|done].
Qed.

Lemma CURATED_BOOKS_ids_NoDup : NoDup (map snd CURATED_BOOKS).
Proof. apply (bool_decide_unpack _). vm_compute. exact I. Qed.

Lemma CURATED_BOOKS_keys_NoDup : NoDup (map fst CURATED_BOOKS).
Proof. apply (bool_decide_unpack _). vm_compute. exact I. Qed.

Lemma books_to_download_ids_NoDup max_books genres :
  NoDup (map snd (books_to_download max_books genres)).
Proof.
  eapply sublist_NoDup; [apply CURATED_BOOKS_ids_NoDup|].
  apply sublist_map, books_to_download_sublist.
Qed.

(** X4.  The selection is always a subsequence of the catalog: entries keep
    their catalog order, and no key and no identifier is selected twice. *)
Theorem selection_is_subsequence max_books genres :
  books_to_download max_books genres `sublist_of` CURATED_BOOKS ∧
  NoDup (map fst (books_to_download max_books genres)) ∧
  NoDup (map snd (books_to_download max_books genres)).
Proof.
  split; [apply books_to_download_sublist|]. split.
  - eapply sublist_NoDup; [apply CURATED_BOOKS_keys_NoDup|].
    apply sublist_map, books_to_download_sublist.
  - apply books_to_download_ids_NoDup.
Qed.

(** X5.  A genre list that holds the three genres filters nothing out:
    the selection and the run are those with no genre list. *)
Theorem all_genres_is_no_filter dir max_books G delay w :
  (∀ g, g ∈ GENRE_CHOICES → g ∈ G) →
  books_to_download max_books (Some G) = books_to_download max_books None ∧
  download_curated_corpus dir max_books (Some G) delay w
    = download_curated_corpus dir max_books None delay w.
Proof.
  intros Hall.
  assert (Hsel : books_to_download max_books (Some G)
                 = books_to_download max_books None).
  { unfold books_to_download. generalize CURATED_BOOKS as books. intros books.
    destruct G as [|g G]; [done|].
    rewrite list_filter_all; [done|].
    intros [k bid] _. apply py_in_elem_of, Hall, get_genre_choice. }
  split; [done|]. unfold download_curated_corpus. by rewrite Hsel.
Qed.

Lemma all_genres_is_no_filter_witness :
  books_to_download (Some 5)
    (Some ["fantasy_sf"; "poesie"; "thriller_policier"; "litterature_generale"])
    = books_to_download (Some 5) None ∧
  download_curated_corpus "data/raw" (Some 5)
    (Some ["fantasy_sf"; "poesie"; "thriller_policier"; "litterature_generale"])
    1 never_found
    = download_curated_corpus "data/raw" (Some 5) None 1 never_found.
Proof.
  apply (all_genres_is_no_filter "data/raw" (Some 5)
           ["fantasy_sf"; "poesie"; "thriller_policier"; "litterature_generale"]
           1 never_found).
  intros g Hg. unfold GENRE_CHOICES in Hg. apply py_in_elem_of.
  repeat (apply elem_of_cons in Hg as [->|Hg]; [reflexivity|]).
  by apply elem_of_nil in Hg.
Defined.

(** X6.  A genre list that is not empty and holds none of the three genres
    selects nothing: the run returns the empty list and does nothing, no
    request, no wait, no write. *)
Theorem unknown_genres_select_nothing dir max_books G delay w :
  G ≠ [] → (∀ g, g ∈ G → g ∉ GENRE_CHOICES) →
  books_to_download max_books (Some G) = [] ∧
  download_curated_corpus dir max_books (Some G) delay w = Some ([], w).
Proof.
  intros HG Hnone.
  assert (Hsel : books_to_download max_books (Some G) = []).
  { unfold books_to_download. generalize CURATED_BOOKS as books. intros books.
    destruct G as [|g G]; [done|].
    rewrite list_filter_none.
    - destruct max_books as [n|]; [|done]. destruct (n =? 0); [done|].
      apply slice_to_nil.
    - intros [k bid] _. apply not_true_is_false. intros Hin%py_in_elem_of.
      apply (Hnone _ Hin), get_genre_choice. }
  split; [done|]. unfold download_curated_corpus. by rewrite Hsel.
Qed.

Lemma unknown_genres_select_nothing_witness :
  books_to_download None (Some ["poesie"]) = [] ∧
  download_curated_corpus "data/raw" None (Some ["poesie"]) 1 full_book
    = Some ([], full_book).
Proof.
  apply (unknown_genres_select_nothing "data/raw" None ["poesie"] 1 full_book).
  - discriminate.
  - intros g ->%list_elem_of_singleton Hin%py_in_elem_of. discriminate Hin.
Defined.

(** X7.  A negative maximum is not refused: [max_books = N < 0] leaves out
    the last [-N] entries of what would be selected with no maximum. *)
Theorem negative_maximum_drops_from_end N genres :
  N < 0 →
  books_to_download (Some N) genres =
    take (length (books_to_download None genres) - Z.to_nat (- N))
         (books_to_download None genres).
Proof.
  intros HN. unfold books_to_download.
  replace (N =? 0) with false by (symmetry; apply Z.eqb_neq; lia).
  unfold slice_to. replace (N <? 0) with true by (symmetry; apply Z.ltb_lt; lia).
  f_equal. lia.
Qed.

Lemma negative_maximum_drops_from_end_witness :
  books_to_download (Some (-30)) None =
    take (length (books_to_download None None) - Z.to_nat (- -30))
         (books_to_download None None).
Proof. apply (negative_maximum_drops_from_end (-30) None). lia. Defined.

(** ** The fetcher: bounds, retries, frame *)

Lemma backoffs_app t1 t2 : backoffs (t1 ++ t2) = backoffs t1 ++ backoffs t2.
Proof. apply omap_app. Qed.

Lemma courtesies_app t1 t2 :
  courtesies (t1 ++ t2) = courtesies t1 ++ courtesies t2.
Proof. apply omap_app. Qed.

(** What the retry loop adds to the trace: at most one request per attempt,
    waits taken in order from the attempts numbered below [retries], twice
    the number each, and no pause of the batch loop. *)
Lemma attempt_loop_bounds url p retries attempts w r w' :
  attempt_loop url p retries attempts w = (r, w') →
  ∃ evs, trace w' = trace w ++ evs ∧
    sent w' = (sent w + length (List.filter is_request evs))%nat ∧
    (length (List.filter is_request evs) ≤ length attempts)%nat ∧
    backoffs evs `sublist_of`
      map (λ k, k * 2) (List.filter (λ k, k <? retries) attempts) ∧
    courtesies evs = [].
Proof.
  revert w. induction attempts as [|attempt attempts IH]; intros w; cbn.
  - intros [= <- <-]. exists []. rewrite app_nil_r, Nat.add_0_r. done.
  - assert (Hgo : ∀ pre,
      (pre = [] ∨ (pre = [Backoff (attempt * 2)] ∧ (attempt <? retries) = true)) →
      attempt_loop url p retries attempts
        (World (files w) (remote w) (S (sent w))
               ((trace w ++ [Request url]) ++ pre)) = (r, w') →
      ∃ evs, trace w' = trace w ++ evs ∧
        sent w' = (sent w + length (List.filter is_request evs))%nat ∧
        (length (List.filter is_request evs) ≤ S (length attempts))%nat ∧
        backoffs evs `sublist_of`
          map (λ k, k * 2)
            (if attempt <? retries
             then attempt :: List.filter (λ k, k <? retries) attempts
             else List.filter (λ k, k <? retries) attempts) ∧
        courtesies evs = []).
    { intros pre Hpre Hrun.
      destruct (IH _ Hrun) as (evs & Ht & Hs & Hn & Hb & Hc). cbn in Ht, Hs.
      exists (Request url :: pre ++ evs). split.
      { rewrite Ht, <- !app_assoc. done. }
      assert (Hreq : List.filter is_request (pre ++ evs)
                     = List.filter is_request evs).
      { by destruct Hpre as [->|[-> _]]. }
      cbn. rewrite Hreq. split; [lia|]. split; [lia|].
      change (backoffs (Request url :: pre ++ evs)) with (backoffs (pre ++ evs)).
      change (courtesies (Request url :: pre ++ evs))
        with (courtesies (pre ++ evs)).
      rewrite backoffs_app, courtesies_app, Hc.
      destruct Hpre as [->|[-> Hlt]]; cbn; (split; [|done]).
      - destruct (attempt <? retries); [by constructor|done].
      - rewrite Hlt. by constructor. }
    destruct (remote w url (sent w)) as [content|code| |] eqn:Hresp.
    + destruct (Z.of_nat (length content) <? 500).
      * intros Hrun. apply (Hgo []); [by left|]. by rewrite app_nil_r.
      * intros [= <- <-]. exists [Request url; WriteBytes p content].
        cbn. rewrite <- app_assoc.
        repeat split; [lia|lia|apply sublist_nil_l].
    + destruct (code =? 404).
      * intros [= <- <-]. exists [Request url]. cbn.
        repeat split; [lia|lia|apply sublist_nil_l].
      * unfold wait_before_retry. destruct (attempt <? retries) eqn:Hlt.
        -- intros Hrun. apply (Hgo [Backoff (attempt * 2)]); [by right|]. done.
        -- intros Hrun. apply (Hgo []); [by left|]. by rewrite app_nil_r.
    + unfold wait_before_retry. destruct (attempt <? retries) eqn:Hlt.
      * intros Hrun. apply (Hgo [Backoff (attempt * 2)]); [by right|]. done.
      * intros Hrun. apply (Hgo []); [by left|]. by rewrite app_nil_r.
    + unfold wait_before_retry. destruct (attempt <? retries) eqn:Hlt.
      * intros Hrun. apply (Hgo [Backoff (attempt * 2)]); [by right|]. done.
      * intros Hrun. apply (Hgo []); [by left|]. by rewrite app_nil_r.
Qed.








(** X9.  With [retries] zero or negative and no file to skip to,
    [download_book] gives up at once: [None], and the world is untouched. *)
Theorem no_attempt_without_retries id dir retries w :
  already_downloaded (pg_path dir id) w = false → retries ≤ 0 →
  download_book id dir retries w = (None, w).
Proof.
  intros Hnew Hle. unfold download_book. rewrite Hnew.
  by rewrite py_range_nil by lia.
Qed.

Lemma no_attempt_without_retries_witness :
  download_book 200 "data/raw" 0 full_book = (None, full_book).
Proof.
  apply (no_attempt_without_retries 200 "data/raw" 0 full_book).
  - reflexivity.
  - lia.
Defined.

(** Answers that make the loop try again are passed over one attempt each,
    leaving the files as they were. *)
Lemma attempt_loop_skip_retryable url p retries k attempts w :
  (k ≤ length attempts)%nat →
  (∀ j, (j < k)%nat → retryable (remote w url (sent w + j)) = true) →
  ∃ wk, attempt_loop url p retries attempts w
          = attempt_loop url p retries (drop k attempts) wk ∧
        files wk = files w ∧ remote wk = remote w ∧
        sent wk = (sent w + k)%nat.
Proof.
  revert attempts w. induction k as [|k IH]; intros attempts w Hlen Hretry.
  { exists w. by rewrite drop_0, Nat.add_0_r. }
  destruct attempts as [|attempt attempts]; [cbn in Hlen; lia|].
  cbn [drop attempt_loop urlopen].
  assert (Hnext : ∀ w2, files w2 = files w → remote w2 = remote w →
            sent w2 = S (sent w) →
            ∃ wk, attempt_loop url p retries attempts w2
                    = attempt_loop url p retries (drop k attempts) wk ∧
                  files wk = files w ∧ remote wk = remote w ∧
                  sent wk = (sent w + S k)%nat).
  { intros w2 Hf Hr Hs.
    destruct (IH attempts w2) as (wk & Hrun & Hf' & Hr' & Hs').
    - cbn in Hlen. lia.
    - intros j Hj. rewrite Hr, Hs.
      replace (S (sent w) + j)%nat with (sent w + S j)%nat by lia.
      apply Hretry. lia.
    - exists wk. repeat split; [done|congruence..|lia]. }
  specialize (Hretry 0%nat ltac:(lia)) as Hfirst.
  rewrite Nat.add_0_r in Hfirst.
  destruct (remote w url (sent w)) as [content|code| |]; cbn in Hfirst.
  - rewrite Hfirst. by apply Hnext.
  - apply negb_true_iff in Hfirst. rewrite Hfirst.
    apply Hnext; unfold wait_before_retry; by destruct (attempt <? retries).
  - apply Hnext; unfold wait_before_retry; by destruct (attempt <? retries).
  - apply Hnext; unfold wait_before_retry; by destruct (attempt <? retries).
Qed.

Lemma drop_lt_cons {A} k (l : list A) :
  (k < length l)%nat → ∃ x l', drop k l = x :: l'.
Proof.
  intros Hk. destruct (drop k l) as [|x l'] eqn:Hdrop; [|eauto].
  apply (f_equal length) in Hdrop. rewrite length_drop in Hdrop. cbn in Hdrop. lia.
Qed.

(** X10.  Retrying works: when the first [k] answers are undersized bodies
    or caught errors other than a 404, [k] is below [retries], and the next
    answer is a body of at least 500 bytes, [download_book] returns the path
    after exactly [k + 1] requests, and the destination holds that body. *)
Theorem retry_until_success id dir retries w k content :
  already_downloaded (pg_path dir id) w = false →
  Z.of_nat k < retries →
  (∀ j, (j < k)%nat →
        retryable (remote w (GUTENBERG_URL id) (sent w + j)) = true) →
  remote w (GUTENBERG_URL id) (sent w + k) = Body content →
  500 ≤ Z.of_nat (length content) →
  ∃ w', download_book id dir retries w = (Some (pg_path dir id), w') ∧
        sent w' = (sent w + k + 1)%nat ∧
        files w' = <[pg_path dir id := content]> (files w).
Proof.
  intros Hnew Hk Hretry Hbody Hlen. unfold download_book. rewrite Hnew.
  assert (Hklen : (k < length (py_range 1 (retries + 1)))%nat).
  { rewrite py_range_length. lia. }
  destruct (attempt_loop_skip_retryable (GUTENBERG_URL id) (pg_path dir id)
              retries k (py_range 1 (retries + 1)) w)
    as (wk & -> & Hf & Hr & Hs); [lia|done|].
  destruct (drop_lt_cons k _ Hklen) as (attempt & rest & ->).
  cbn. rewrite Hr, Hs, Hbody.
  replace (Z.of_nat (length content) <? 500) with false
    by (symmetry; apply Z.ltb_ge; lia).
  eexists. split; [done|]. cbn. rewrite Hf. split; [lia|done].
Qed.

Lemma retry_until_success_witness :
  ∃ w', download_book 200 "data/raw" 3 flaky = (Some pg200, w') ∧
        sent w' = (sent flaky + 2 + 1)%nat ∧
        files w' = <[pg200 := replicate 2000 Byte.x00]> (files flaky).
Proof.
  apply (retry_until_success 200 "data/raw" 3 flaky 2 (replicate 2000 Byte.x00)).
  - reflexivity.
  - lia.
  - intros j Hj. cbn. destruct j as [|[|j]]; [reflexivity..|lia].
  - reflexivity.
  - vm_compute. discriminate.
Defined.

(** X11.  A 404 ends the fetch at whatever attempt it comes: after [k]
    answers that make the loop try again, [k] below [retries], a 404 gives
    [None] after exactly [k + 1] requests, and no file is changed. *)
Theorem not_found_after_retries id dir retries w k :
  already_downloaded (pg_path dir id) w = false →
  Z.of_nat k < retries →
  (∀ j, (j < k)%nat →
        retryable (remote w (GUTENBERG_URL id) (sent w + j)) = true) →
  remote w (GUTENBERG_URL id) (sent w + k) = HTTPError 404 →
  ∃ w', download_book id dir retries w = (None, w') ∧
        sent w' = (sent w + k + 1)%nat ∧
        files w' = files w.
Proof.
  intros Hnew Hk Hretry Hgone. unfold download_book. rewrite Hnew.
  assert (Hklen : (k < length (py_range 1 (retries + 1)))%nat).
  { rewrite py_range_length. lia. }
  destruct (attempt_loop_skip_retryable (GUTENBERG_URL id) (pg_path dir id)
              retries k (py_range 1 (retries + 1)) w)
    as (wk & -> & Hf & Hr & Hs); [lia|done|].
  destruct (drop_lt_cons k _ Hklen) as (attempt & rest & ->).
  cbn. rewrite Hr, Hs, Hgone. cbn.
  eexists. split; [done|]. cbn. rewrite Hf. split; [lia|done].
Qed.

Lemma not_found_after_retries_witness :
  ∃ w', download_book 200 "data/raw" 3 late_404 = (None, w') ∧
        sent w' = (sent late_404 + 1 + 1)%nat ∧
        files w' = files late_404.
Proof.
  apply (not_found_after_retries 200 "data/raw" 3 late_404 1).
  - reflexivity.
  - lia.
  - intros j Hj. cbn. destruct j as [|j]; [reflexivity|lia].
  - reflexivity.
Defined.

(** X12.  [download_book] touches no file but its destination: every other
    path holds after the call what it held before. *)
Theorem fetch_leaves_other_files id dir retries w r w' q :
  download_book id dir retries w = (r, w') →
  q ≠ pg_path dir id →
  files w' !! q = files w !! q.
Proof.
  unfold download_book. destruct (already_downloaded _ w).
  - by intros [= <- <-].
  - intros (evs & n & _ & Hcase)%attempt_loop_effects Hq. cbn in Hcase.
    destruct Hcase as [[_ ->]|(content & k & _ & _ & _ & ->)]; [done|].
    cbn. by rewrite lookup_insert_ne.
Qed.

Lemma fetch_leaves_other_files_witness :
  files (download_book 17489 "data/raw" 3 full_book_fetched).2 !! pg200
    = files full_book_fetched !! pg200.
Proof.
  apply (fetch_leaves_other_files 17489 "data/raw" 3 full_book_fetched
           (download_book 17489 "data/raw" 3 full_book_fetched).1).
  - vm_compute. reflexivity.
  - vm_compute. discriminate.
Defined.



(** ** The batch: pauses, resumption, files *)

Lemma download_book_courtesies id dir retries w r w' :
  download_book id dir retries w = (r, w') →
  courtesies (trace w') = courtesies (trace w).
Proof.
  unfold download_book. destruct (already_downloaded _ w).
  - by intros [= <- <-].
  - intros (evs & -> & _ & _ & _ & Hc)%attempt_loop_bounds.
    by rewrite courtesies_app, Hc, app_nil_r.
Qed.

Lemma download_book_sent_bound id dir w r w' :
  download_book id dir 3 w = (r, w') →
  (sent w ≤ sent w' ≤ sent w + 3)%nat.
Proof.
  unfold download_book. destruct (already_downloaded _ w).
  - intros [= <- <-]. lia.
  - intros (evs & _ & -> & Hn & _)%attempt_loop_bounds.
    change (length (py_range 1 (3 + 1))) with 3%nat in Hn. lia.
Qed.

Lemma courtesy_delay_files i total delay w :
  files (courtesy_delay i total delay w) = files w.
Proof. unfold courtesy_delay. by destruct (_ && _). Qed.

Lemma courtesy_delay_sent i total delay w :
  sent (courtesy_delay i total delay w) = sent w.
Proof. unfold courtesy_delay. by destruct (_ && _). Qed.

Lemma already_downloaded_files p w1 w2 :
  files w1 = files w2 → already_downloaded p w1 = already_downloaded p w2.
Proof.
  intros Hf. unfold already_downloaded, path_exists, st_size. by rewrite Hf.
Qed.

(** The pauses of a batch whose last item is numbered [total]. *)
Lemma batch_courtesies dir delay total i w items results w' :
  batch dir delay total i w items results w' →
  i + Z.of_nat (length items) = total + 1 →
  courtesies (trace w') =
    courtesies (trace w) ++
    (if Qle_bool delay 0 then [] else replicate (length items - 1) delay).
Proof.
  assert (Hstep : ∀ i w1 (items : list (string * Z)),
    i + Z.of_nat (S (length items)) = total + 1 →
    courtesies (trace (courtesy_delay i total delay w1)) =
      courtesies (trace w1) ++
      (if Qle_bool delay 0 then []
       else match items with [] => [] | _ => [delay] end)).
  { intros j w1 its Hj. unfold courtesy_delay.
    destruct its as [|it its]; cbn [length] in *.
    - replace (j <? total) with false by (symmetry; apply Z.ltb_ge; lia).
      cbn. by destruct (Qle_bool delay 0); rewrite app_nil_r.
    - replace (j <? total) with true by (symmetry; apply Z.ltb_lt; lia).
      cbn. destruct (Qle_bool delay 0); cbn; [by rewrite app_nil_r|].
      by rewrite courtesies_app. }
  assert (Hjoin : ∀ (items : list (string * Z)),
    (if Qle_bool delay 0 then []
     else match items with [] => [] | _ => [delay] end) ++
    (if Qle_bool delay 0 then [] else replicate (length items - 1) delay)
    = if Qle_bool delay 0 then [] else replicate (length items) delay).
  { intros its. destruct (Qle_bool delay 0); [done|].
    destruct its as [|it its]; [done|]. cbn. by rewrite Nat.sub_0_r. }
  induction 1 as [i w|i w k bid w1 items results w' Hfetch _ IH
                  |i w k bid p content w1 items results w' Hfetch _ _ IH];
    intros Hi; cbn [length] in *.
  - cbn. by destruct (Qle_bool delay 0); rewrite app_nil_r.
  - rewrite IH by lia. rewrite (Hstep i w1 items) by lia.
    rewrite (download_book_courtesies _ _ _ _ _ _ Hfetch).
    rewrite <- app_assoc, Hjoin. cbn. by rewrite Nat.sub_0_r.
  - rewrite IH by lia. rewrite (Hstep i w1 items) by lia.
    rewrite (download_book_courtesies _ _ _ _ _ _ Hfetch).
    rewrite <- app_assoc, Hjoin. cbn. by rewrite Nat.sub_0_r.
Qed.

(** The batch loop paces the fetches as [fetch_all_paced] does. *)
Lemma batch_paced dir delay total i w items results w' :
  batch dir delay total i w items results w' →
  i + Z.of_nat (length items) = total + 1 →
  w' = fetch_all_paced dir delay items w.
Proof.
  assert (Hpause : ∀ i w1 (it : string * Z) (items : list (string * Z)),
    i + Z.of_nat (S (S (length items))) = total + 1 →
    courtesy_delay i total delay w1
      = if Qle_bool delay 0 then w1 else emit (Courtesy delay) w1).
  { intros j w1 it its Hj. unfold courtesy_delay.
    replace (j <? total) with true by (symmetry; apply Z.ltb_lt; lia).
    cbn. by destruct (Qle_bool delay 0). }
  assert (Hlast : ∀ i w1,
    i + Z.of_nat 1 = total + 1 → courtesy_delay i total delay w1 = w1).
  { intros j w1 Hj. unfold courtesy_delay.
    by replace (j <? total) with false by (symmetry; apply Z.ltb_ge; lia). }
  induction 1 as [i w|i w k bid w1 items results w' Hfetch Hrest IH
                  |i w k bid p content w1 items results w' Hfetch _ Hrest IH];
    intros Hi; [done|..].
  - cbn [fetch_all_paced]. rewrite Hfetch. cbn [snd].
    destruct items as [|it items].
    + inversion Hrest; subst. apply Hlast. cbn [length] in Hi. lia.
    + rewrite IH by (cbn [length] in *; lia).
      rewrite (Hpause i w1 it items); [done|]. cbn [length] in *. lia.
  - cbn [fetch_all_paced]. rewrite Hfetch. cbn [snd].
    destruct items as [|it items].
    + inversion Hrest; subst. apply Hlast. cbn [length] in Hi. lia.
    + rewrite IH by (cbn [length] in *; lia).
      rewrite (Hpause i w1 it items); [done|]. cbn [length] in *. lia.
Qed.

(** X14.  The run pauses between books only.  The world a run ends in is the
    one reached by fetching the selected books in order and sleeping [delay],
    when it is positive, after each book that another one follows: no pause
    before the first book, none after the last, none at all with a [delay]
    of zero or less.  A fetch itself adds no such pause, so the pauses are
    [delay], once less than there are records. *)
Theorem courtesy_between_items dir max_books genres delay w results w' :
  download_curated_corpus dir max_books genres delay w = Some (results, w') →
  w' = fetch_all_paced dir delay (books_to_download max_books genres) w ∧
  (∀ bid w0, courtesies (trace (download_book bid dir 3 w0).2)
             = courtesies (trace w0)) ∧
  courtesies (trace w') =
    courtesies (trace w) ++
    (if Qle_bool delay 0 then [] else replicate (length results - 1) delay).
Proof.
  intros Hrun.
  destruct (download_curated_corpus_spec dir max_books genres delay w)
    as (results0 & w0' & Hrun0 & Hbatch).
  rewrite Hrun in Hrun0. injection Hrun0 as <- <-.
  split; [by apply (batch_paced _ _ _ _ _ _ _ _ Hbatch); lia|]. split.
  - intros bid w0. destruct (download_book bid dir 3 w0) as [r w1] eqn:Hfetch.
    by apply download_book_courtesies in Hfetch.
  - rewrite (batch_courtesies _ _ _ _ _ _ _ _ Hbatch) by lia.
    apply batch_entries in Hbatch. by rewrite <- Hbatch, length_map.
Qed.

Lemma courtesy_between_items_witness :
  ∃ results w',
    download_curated_corpus "data/raw" (Some 3) None 1 never_found
      = Some (results, w') ∧
    trace w' =
      [Request (GUTENBERG_URL 17489); Courtesy 1;
       Request (GUTENBERG_URL 17493); Courtesy 1;
       Request (GUTENBERG_URL 2610)] ∧
    w' = fetch_all_paced "data/raw" 1 (books_to_download (Some 3) None)
           never_found ∧
    (∀ bid w0, courtesies (trace (download_book bid "data/raw" 3 w0).2)
               = courtesies (trace w0)) ∧
    courtesies (trace w') =
      courtesies (trace never_found) ++
      (if Qle_bool 1 0 then [] else replicate (length results - 1) 1%Q).
Proof.
  do 2 eexists. split; [vm_compute; reflexivity|].
  split; [vm_compute; reflexivity|].
  apply (courtesy_between_items "data/raw" (Some 3) None 1 never_found).
  vm_compute. reflexivity.
Defined.

(** Two books have two URLs. *)
Lemma string_app_inj_len s1 s2 t1 t2 :
  String.length s1 = String.length s2 → s1 +:+ t1 = s2 +:+ t2 → s1 = s2.
Proof.
  revert s2. induction s1 as [|c s1 IH]; intros [|d s2] Hlen Heq;
    try done; cbn in *.
  injection Heq as -> Heq. f_equal. apply IH; [lia|done].
Qed.

Lemma string_length_app s t :
  String.length (s +:+ t) = (String.length s + String.length t)%nat.
Proof.
  induction s as [|c s IH]; [done|].
  change (String c s +:+ t) with (String c (s +:+ t)).
  cbn [String.length]. by rewrite IH.
Qed.

Lemma GUTENBERG_URL_inj a b : GUTENBERG_URL a = GUTENBERG_URL b → a = b.
Proof.
  unfold GUTENBERG_URL. intros H.
  apply (inj (String.append "https://www.gutenberg.org/cache/epub/")) in H.
  apply (inj pretty). apply (string_app_inj_len _ _ _ _) in H; [done|].
  apply (f_equal String.length) in H.
  rewrite !string_length_app in H. cbn in H. lia.
Qed.

(** The requests of a fetch are all for its URL. *)
Lemma attempt_loop_request_urls url p retries attempts w r w' :
  attempt_loop url p retries attempts w = (r, w') →
  ∃ evs, trace w' = trace w ++ evs ∧
         Forall (λ e, ∀ u, e = Request u → u = url) evs.
Proof.
  revert w. induction attempts as [|attempt attempts IH]; intros w; cbn.
  - intros [= <- <-]. exists []. by rewrite app_nil_r.
  - assert (Hgo : ∀ pre,
      Forall (λ e, ∀ u, e = Request u → u = url) pre →
      attempt_loop url p retries attempts
        (World (files w) (remote w) (S (sent w))
               ((trace w ++ [Request url]) ++ pre)) = (r, w') →
      ∃ evs, trace w' = trace w ++ evs ∧
             Forall (λ e, ∀ u, e = Request u → u = url) evs).
    { intros pre Hpre (evs & Ht & Hevs)%IH. cbn in Ht.
      exists ((Request url :: pre) ++ evs). split.
      - rewrite Ht, <- !app_assoc. done.
      - apply Forall_app. split; [|done].
        constructor; [|done]. by intros u [= ->]. }
    assert (Hone : Forall (λ e, ∀ u, e = Request u → u = url) [Request url]).
    { constructor; [|done]. by intros u [= ->]. }
    destruct (remote w url (sent w)) as [content|code| |].
    + destruct (Z.of_nat (length content) <? 500).
      * intros Hrun. apply (Hgo []); [done|]. by rewrite app_nil_r.
      * intros [= <- <-]. exists [Request url; WriteBytes p content].
        cbn. rewrite <- app_assoc. split; [done|].
        constructor; [by intros u [= ->]|]. constructor; [|done]. by intros u.
    + destruct (code =? 404).
      * intros [= <- <-]. by exists [Request url].
      * unfold wait_before_retry. destruct (attempt <? retries).
        -- apply (Hgo [Backoff (attempt * 2)]). constructor; [|done]. by intros u.
        -- intros Hrun. apply (Hgo []); [done|]. by rewrite app_nil_r.
    + unfold wait_before_retry. destruct (attempt <? retries).
      * apply (Hgo [Backoff (attempt * 2)]). constructor; [|done]. by intros u.
      * intros Hrun. apply (Hgo []); [done|]. by rewrite app_nil_r.
    + unfold wait_before_retry. destruct (attempt <? retries).
      * apply (Hgo [Backoff (attempt * 2)]). constructor; [|done]. by intros u.
      * intros Hrun. apply (Hgo []); [done|]. by rewrite app_nil_r.
Qed.

(** What one fetch of the batch adds to the trace: at most three requests,
    all for the URL of its book. *)
Lemma download_book_events bid dir w r w1 :
  download_book bid dir 3 w = (r, w1) →
  ∃ evs, trace w1 = trace w ++ evs ∧
    sent w1 = (sent w + length (List.filter is_request evs))%nat ∧
    (length (List.filter is_request evs) ≤ 3)%nat ∧
    Forall (λ e, ∀ u, e = Request u → u = GUTENBERG_URL bid) evs.
Proof.
  unfold download_book. destruct (already_downloaded _ w).
  - intros [= <- <-]. exists []. rewrite app_nil_r, Nat.add_0_r. cbn.
    repeat split; [lia|done].
  - intros Hrun.
    destruct (attempt_loop_bounds _ _ _ _ _ _ _ Hrun)
      as (evs & Ht & Hs & Hn & _).
    destruct (attempt_loop_request_urls _ _ _ _ _ _ _ Hrun)
      as (evs' & Ht' & Hurls).
    rewrite Ht in Ht'. apply app_inv_head in Ht'. subst evs'.
    exists evs. repeat split; [done..| |done].
    by change (length (py_range 1 (3 + 1))) with 3%nat in Hn.
Qed.

Lemma requests_for_app url t1 t2 :
  requests_for url (t1 ++ t2)
    = (requests_for url t1 + requests_for url t2)%nat.
Proof. unfold requests_for. by rewrite List.filter_app, length_app. Qed.

Lemma requests_for_le url t :
  (requests_for url t ≤ length (List.filter is_request t))%nat.
Proof.
  unfold requests_for. induction t as [|[u| | |] t IH]; cbn; try lia.
  destruct (String.eqb u url); cbn; lia.
Qed.

Lemma requests_for_other url url' t :
  Forall (λ e, ∀ u, e = Request u → u = url') t → url ≠ url' →
  requests_for url t = 0%nat.
Proof.
  unfold requests_for. intros Hall Hne.
  induction Hall as [|[u| | |] t Hu _ IH]; cbn; try done.
  rewrite (Hu u eq_refl).
  destruct (String.eqb_spec url' url) as [->|_]; done.
Qed.

(** The requests of a batch whose items have different identifiers. *)
Lemma batch_requests dir delay total i w items results w' :
  batch dir delay total i w items results w' →
  NoDup (map snd items) →
  ∃ evs, trace w' = trace w ++ evs ∧
    sent w' = (sent w + length (List.filter is_request evs))%nat ∧
    (length (List.filter is_request evs) ≤ 3 * length items)%nat ∧
    Forall (λ e, ∀ u, e = Request u →
                 ∃ k bid, (k, bid) ∈ items ∧ u = GUTENBERG_URL bid) evs ∧
    ∀ bid, (requests_for (GUTENBERG_URL bid) evs ≤ 3)%nat ∧
           (bid ∉ map snd items →
            requests_for (GUTENBERG_URL bid) evs = 0%nat).
Proof.
  assert (Hpause : ∀ i w1, ∃ pre,
    trace (courtesy_delay i total delay w1) = trace w1 ++ pre ∧
    sent (courtesy_delay i total delay w1) = sent w1 ∧
    List.filter is_request pre = [] ∧
    (∀ url, requests_for url pre = 0%nat) ∧
    Forall (λ e, ∀ u, e ≠ Request u) pre).
  { intros j w1. unfold courtesy_delay. destruct (_ && _).
    - exists [Courtesy delay]. repeat split. by constructor.
    - exists []. by rewrite app_nil_r. }
  assert (Hstep : ∀ i w (k : string) (bid : Z) r w1
                    (items : list (string * Z))
                    (results : list BookMetadata) w',
    download_book bid dir 3 w = (r, w1) →
    (NoDup (map snd items) →
     ∃ evs, trace w' = trace (courtesy_delay i total delay w1) ++ evs ∧
       sent w' = (sent (courtesy_delay i total delay w1)
                  + length (List.filter is_request evs))%nat ∧
       (length (List.filter is_request evs) ≤ 3 * length items)%nat ∧
       Forall (λ e, ∀ u, e = Request u →
                    ∃ k bid, (k, bid) ∈ items ∧ u = GUTENBERG_URL bid) evs ∧
       ∀ bid, (requests_for (GUTENBERG_URL bid) evs ≤ 3)%nat ∧
              (bid ∉ map snd items →
               requests_for (GUTENBERG_URL bid) evs = 0%nat)) →
    NoDup (map snd ((k, bid) :: items)) →
    ∃ evs, trace w' = trace w ++ evs ∧
      sent w' = (sent w + length (List.filter is_request evs))%nat ∧
      (length (List.filter is_request evs) ≤ 3 * length ((k, bid) :: items))%nat ∧
      Forall (λ e, ∀ u, e = Request u →
                   ∃ k' bid', (k', bid') ∈ (k, bid) :: items ∧
                              u = GUTENBERG_URL bid') evs ∧
      ∀ bid0, (requests_for (GUTENBERG_URL bid0) evs ≤ 3)%nat ∧
              (bid0 ∉ map snd ((k, bid) :: items) →
               requests_for (GUTENBERG_URL bid0) evs = 0%nat)).
  { intros j w0 k bid r w1 its res w2 Hfetch IH Hnd.
    cbn in Hnd. apply NoDup_cons in Hnd as [Hfresh Hnd].
    destruct (download_book_events _ _ _ _ _ Hfetch)
      as (evs1 & Ht1 & Hs1 & Hn1 & Hu1).
    destruct (Hpause j w1) as (pre & Htp & Hsp & Hfp & Hrp & Hup).
    destruct (IH Hnd) as (evs2 & Ht2 & Hs2 & Hn2 & Hu2 & Hcount).
    exists (evs1 ++ pre ++ evs2). split.
    { rewrite Ht2, Htp, Ht1, <- !app_assoc. done. }
    rewrite !List.filter_app, Hfp, !length_app. cbn [length app].
    split; [lia|]. split; [lia|]. split.
    - apply Forall_app. split; [|apply Forall_app; split].
      + eapply Forall_impl; [exact Hu1|]. cbn. intros e He u ->.
        exists k, bid. split; [left|]. by apply He.
      + eapply Forall_impl; [exact Hup|]. cbn. intros e He u ->. by destruct (He u).
      + eapply Forall_impl; [exact Hu2|]. cbn.
        intros e He u Heq. destruct (He u Heq) as (k' & bid' & Hin & ->).
        exists k', bid'. split; [by right|done].
    - intros bid0. rewrite !requests_for_app, Hrp.
      destruct (Hcount bid0) as [Hle Hzero].
      destruct (decide (bid0 = bid)) as [->|Hne].
      + rewrite (Hzero Hfresh).
        pose proof (requests_for_le (GUTENBERG_URL bid) evs1).
        split; [lia|]. intros Hout. exfalso. apply Hout. cbn. left.
      + rewrite (requests_for_other _ (GUTENBERG_URL bid) evs1 Hu1)
          by (intros Heq%GUTENBERG_URL_inj; done).
        split; [lia|]. intros Hout. apply Hzero.
        intros Hin. apply Hout. cbn. by right. }
  induction 1 as [i w|i w k bid w1 items results w' Hfetch _ IH
                  |i w k bid p content w1 items results w' Hfetch _ _ IH].
  - intros _. exists []. rewrite app_nil_r, Nat.add_0_r. cbn.
    repeat split; cbn; try done; lia.
  - by apply (Hstep i w k bid None w1 items results w').
  - by apply (Hstep i w k bid (Some p) w1 items results w').
Qed.

(** X15.  In a run, requests are sent for the selected books only, and for
    each book at most three: among the events a run adds to the trace, every
    request asks for the URL of a selected book, no URL is asked for more
    than three times, and so there are at most three requests per selected
    book in all. *)
Theorem run_requests_bounded dir max_books genres delay w results w' :
  download_curated_corpus dir max_books genres delay w = Some (results, w') →
  ∃ evs, trace w' = trace w ++ evs ∧
    sent w' = (sent w + length (List.filter is_request evs))%nat ∧
    (∀ url, Request url ∈ evs →
            ∃ k bid, (k, bid) ∈ books_to_download max_books genres ∧
                     url = GUTENBERG_URL bid) ∧
    (∀ bid, (requests_for (GUTENBERG_URL bid) evs ≤ 3)%nat) ∧
    (∀ bid, bid ∉ map snd (books_to_download max_books genres) →
            requests_for (GUTENBERG_URL bid) evs = 0%nat) ∧
    (length (List.filter is_request evs)
       ≤ 3 * length (books_to_download max_books genres))%nat.
Proof.
  intros Hrun.
  destruct (download_curated_corpus_spec dir max_books genres delay w)
    as (results0 & w0' & Hrun0 & Hbatch).
  rewrite Hrun in Hrun0. injection Hrun0 as <- <-.
  destruct (batch_requests _ _ _ _ _ _ _ _ Hbatch
              (books_to_download_ids_NoDup max_books genres))
    as (evs & Ht & Hs & Hn & Hu & Hcount).
  exists evs. split; [done|]. split; [done|]. split; [|split; [|split]].
  - intros url Hin. rewrite Forall_forall in Hu. by apply (Hu _ Hin).
  - intros bid. apply Hcount.
  - intros bid. apply Hcount.
  - done.
Qed.

Lemma run_requests_bounded_witness :
  ∃ results w' evs,
    download_curated_corpus "data/raw" (Some 2) None 1 bad_gateway
      = Some (results, w') ∧
    requests_for (GUTENBERG_URL 17489) (trace w') = 3%nat ∧
    requests_for (GUTENBERG_URL 17493) (trace w') = 3%nat ∧
    trace w' = trace bad_gateway ++ evs ∧
    sent w' = (sent bad_gateway + length (List.filter is_request evs))%nat ∧
    (∀ url, Request url ∈ evs →
            ∃ k bid, (k, bid) ∈ books_to_download (Some 2) None ∧
                     url = GUTENBERG_URL bid) ∧
    (∀ bid, (requests_for (GUTENBERG_URL bid) evs ≤ 3)%nat) ∧
    (∀ bid, bid ∉ map snd (books_to_download (Some 2) None) →
            requests_for (GUTENBERG_URL bid) evs = 0%nat) ∧
    (length (List.filter is_request evs)
       ≤ 3 * length (books_to_download (Some 2%Z) None))%nat.
Proof.
  assert (Hrun : ∃ results w',
    download_curated_corpus "data/raw" (Some 2) None 1 bad_gateway
      = Some (results, w') ∧
    requests_for (GUTENBERG_URL 17489) (trace w') = 3%nat ∧
    requests_for (GUTENBERG_URL 17493) (trace w') = 3%nat).
  { do 2 eexists. split; [vm_compute; reflexivity|].
    split; vm_compute; reflexivity. }
  destruct Hrun as (results & w' & Hrun & H1 & H2).
  destruct (run_requests_bounded "data/raw" (Some 2) None 1 bad_gateway
              results w' Hrun) as (evs & Hevs).
  by exists results, w', evs.
Defined.

Lemma batch_all_present dir delay total i w items results w' :
  batch dir delay total i w items results w' →
  (∀ k bid, (k, bid) ∈ items → already_downloaded (pg_path dir bid) w = true) →
  files w' = files w ∧ sent w' = sent w ∧
  backoffs (trace w') = backoffs (trace w) ∧
  Forall (λ o, download_success o = true ∧
               file_path o = pg_path dir (book_id o) ∧
               st_size (file_path o) w = Some (file_size o)) results.
Proof.
  assert (Hskip : ∀ bid w r w1,
    already_downloaded (pg_path dir bid) w = true →
    download_book bid dir 3 w = (r, w1) → r = Some (pg_path dir bid) ∧ w1 = w).
  { intros bid w2 r w1 Hp. unfold download_book. rewrite Hp. by intros [= <- <-]. }
  assert (Hpause : ∀ i w1,
    backoffs (trace (courtesy_delay i total delay w1)) = backoffs (trace w1)).
  { intros j w1. unfold courtesy_delay. destruct (_ && _); [|done].
    cbn. by rewrite backoffs_app, app_nil_r. }
  induction 1 as [i w|i w k bid w1 items results w' Hfetch _ IH
                  |i w k bid p content w1 items results w' Hfetch Hfile _ IH];
    intros Hall.
  - done.
  - destruct (Hskip _ _ _ _ (Hall k bid ltac:(left)) Hfetch) as [[=] _].
  - destruct (Hskip _ _ _ _ (Hall k bid ltac:(left)) Hfetch) as [[= ->] ->].
    destruct IH as (Hf & Hs & Hb & Hrec).
    { intros k' bid' Hin.
      rewrite (already_downloaded_files _ _ w) by apply courtesy_delay_files.
      apply (Hall k' bid'). by right. }
    rewrite courtesy_delay_files in Hf. rewrite courtesy_delay_sent in Hs.
    rewrite Hpause in Hb. repeat split; [done..|].
    constructor.
    + cbn. repeat split. unfold st_size. by rewrite Hfile.
    + eapply Forall_impl; [exact Hrec|]. cbn. intros o (? & ? & Hsize).
      repeat split; [done..|]. unfold st_size in *.
      by rewrite courtesy_delay_files in Hsize.
Qed.

(** X16.  A run is resumable: when every selected book is already there
    with more than 1000 bytes, the run sends no request, waits for no retry
    and changes no file, and every record is a success carrying the path and
    the size of the file on disk. *)
Theorem run_resumes_without_network dir max_books genres delay w :
  (∀ k bid, (k, bid) ∈ books_to_download max_books genres →
            already_downloaded (pg_path dir bid) w = true) →
  ∃ results w',
    download_curated_corpus dir max_books genres delay w = Some (results, w') ∧
    files w' = files w ∧ sent w' = sent w ∧
    backoffs (trace w') = backoffs (trace w) ∧
    Forall (λ o, download_success o = true ∧
                 file_path o = pg_path dir (book_id o) ∧
                 st_size (file_path o) w = Some (file_size o)) results.
Proof.
  intros Hall.
  destruct (download_curated_corpus_spec dir max_books genres delay w)
    as (results & w' & Hrun & Hbatch).
  exists results, w'. split; [done|].
  by apply (batch_all_present _ _ _ _ _ _ _ _ Hbatch).
Qed.

Lemma run_resumes_without_network_witness :
  ∃ results w',
    download_curated_corpus "data/raw" (Some 1) None 1 first_book_fetched
      = Some (results, w') ∧
    files w' = files first_book_fetched ∧ sent w' = sent first_book_fetched ∧
    backoffs (trace w') = backoffs (trace first_book_fetched) ∧
    Forall (λ o, download_success o = true ∧
                 file_path o = pg_path "data/raw" (book_id o) ∧
                 st_size (file_path o) first_book_fetched = Some (file_size o))
           results.
Proof.
  apply (run_resumes_without_network "data/raw" (Some 1) None 1
           first_book_fetched).
  intros k bid Hin.
  change (books_to_download (Some 1) None)
    with [("hugo_miserables_t1", 17489)] in Hin.
  apply list_elem_of_singleton in Hin as [= -> ->]. reflexivity.
Defined.

(** Paths of different books differ, and none is the path of the report. *)
Lemma list_ascii_of_string_app s1 s2 :
  String.list_ascii_of_string (s1 +:+ s2)
    = String.list_ascii_of_string s1 ++ String.list_ascii_of_string s2.
Proof.
  induction s1 as [|c s1 IH]; [done|].
  change (String c s1 +:+ s2) with (String c (s1 +:+ s2)).
  cbn [String.list_ascii_of_string]. by rewrite IH.
Qed.

Lemma string_app_inj_r s1 s2 t : s1 +:+ t = s2 +:+ t → s1 = s2.
Proof.
  intros H%(f_equal String.list_ascii_of_string).
  rewrite !list_ascii_of_string_app in H. apply app_inv_tail in H.
  apply (f_equal String.string_of_list_ascii) in H.
  by rewrite !String.string_of_list_ascii_of_string in H.
Qed.

Lemma pg_path_inj dir a b : pg_path dir a = pg_path dir b → a = b.
Proof.
  unfold pg_path, path_join. intros H.
  apply (inj (String.append dir)) in H.
  apply (inj (String.append "/")) in H.
  apply (inj (String.append "pg")) in H.
  apply string_app_inj_r in H. by apply (inj pretty) in H.
Qed.

Lemma metadata_path_not_pg dir bid : metadata_path dir ≠ pg_path dir bid.
Proof.
  unfold metadata_path, pg_path, path_join. intros H.
  apply (inj (String.append dir)) in H.
  apply (inj (String.append "/")) in H. discriminate H.
Qed.

(** A batch changes no file but those of its items. *)
Lemma batch_frame dir delay total i w items results w' q :
  batch dir delay total i w items results w' →
  (∀ k bid, (k, bid) ∈ items → q ≠ pg_path dir bid) →
  files w' !! q = files w !! q.
Proof.
  assert (Hfetch_frame : ∀ bid w r w1,
    download_book bid dir 3 w = (r, w1) → q ≠ pg_path dir bid →
    files w1 !! q = files w !! q).
  { intros bid w0 r w1. unfold download_book.
    destruct (already_downloaded _ w0).
    - by intros [= <- <-].
    - intros (evs & n & _ & Hcase)%attempt_loop_effects Hq. cbn in Hcase.
      destruct Hcase as [[_ ->]|(content & j & _ & _ & _ & ->)]; [done|].
      cbn. by rewrite lookup_insert_ne. }
  induction 1 as [i w|i w k bid w1 items results w' Hfetch _ IH
                  |i w k bid p content w1 items results w' Hfetch _ _ IH];
    intros Hq; [done|..];
    (rewrite IH by (intros k' bid' Hin; apply (Hq k' bid'); by right));
    rewrite courtesy_delay_files;
    apply (Hfetch_frame _ _ _ _ Hfetch), (Hq k bid); by left.
Qed.

(** When no identifier comes twice, the file of every successful record is
    still there at the end of the batch, with the recorded size. *)
Lemma batch_sizes_on_disk dir delay total i w items results w' :
  batch dir delay total i w items results w' →
  NoDup (map snd items) →
  Forall (λ o, download_success o = true →
               file_path o = pg_path dir (book_id o) ∧
               st_size (file_path o) w' = Some (file_size o)) results.
Proof.
  induction 1 as [i w|i w k bid w1 items results w' Hfetch Hrest IH
                  |i w k bid p content w1 items results w' Hfetch Hfile Hrest IH];
    intros Hnd; [done|..]; cbn in Hnd; apply NoDup_cons in Hnd as [Hfresh Hnd];
    (constructor; [|by apply IH]); cbn; [done|].
  intros _. pose proof (download_book_some _ _ _ _ _ _ Hfetch) as ->.
  split; [done|].
  assert (Hkept : files w' !! pg_path dir bid = Some content).
  { rewrite <- Hfile, <- (courtesy_delay_files i total delay w1).
    apply (batch_frame _ _ _ _ _ _ _ _ (pg_path dir bid) Hrest).
    intros k' bid' Hin Heq%pg_path_inj. subst bid'. apply Hfresh.
    apply list_elem_of_fmap. by exists (k', bid). }
  unfold st_size. by rewrite Hkept.
Qed.

(** X17.  The whole of [download_curated_corpus], report included: it
    returns the records of the loop, [metadata.json] holds their dump, and
    every successful record names the file of its book, which is on disk
    with the recorded size when the function returns; neither a later book
    nor the report has overwritten it. *)
Theorem report_keeps_books dump dir max_books genres delay w :
  ∃ results w1 w',
    download_curated_corpus dir max_books genres delay w = Some (results, w1) ∧
    download_curated_corpus_report dump dir max_books genres delay w
      = Some (results, w') ∧
    files w' !! metadata_path dir = Some (dump results) ∧
    Forall (λ o, download_success o = true →
                 file_path o = pg_path dir (book_id o) ∧
                 st_size (file_path o) w' = Some (file_size o)) results.
Proof.
  destruct (download_curated_corpus_spec dir max_books genres delay w)
    as (results & w1 & Hrun & Hbatch).
  exists results, w1. eexists. split; [done|].
  unfold download_curated_corpus_report. rewrite Hrun. split; [done|].
  split; [cbn; apply lookup_insert_eq|].
  eapply Forall_impl;
    [apply (batch_sizes_on_disk _ _ _ _ _ _ _ _ Hbatch),
       books_to_download_ids_NoDup|].
  cbn. intros o Ho Hok. destruct (Ho Hok) as [Hpath Hsize].
  split; [done|]. unfold st_size in *. cbn.
  rewrite lookup_insert_ne; [done|]. rewrite Hpath. apply metadata_path_not_pg.
Qed.

(** X18.  The whole function changes only the files of the selected books
    and the report: any other path holds afterwards what it held before. *)
Theorem run_touches_only_selected dump dir max_books genres delay w q :
  q ≠ metadata_path dir →
  (∀ k bid, (k, bid) ∈ books_to_download max_books genres →
            q ≠ pg_path dir bid) →
  ∃ results w',
    download_curated_corpus_report dump dir max_books genres delay w
      = Some (results, w') ∧
    files w' !! q = files w !! q.
Proof.
  intros Hreport Hbooks.
  destruct (download_curated_corpus_spec dir max_books genres delay w)
    as (results & w1 & Hrun & Hbatch).
  exists results. eexists.
  unfold download_curated_corpus_report. rewrite Hrun. split; [done|].
  cbn. rewrite lookup_insert_ne by done.
  by apply (batch_frame _ _ _ _ _ _ _ _ q Hbatch).
Qed.

Lemma run_touches_only_selected_witness :
  ∃ results w',
    download_curated_corpus_report (λ _, []) "data/raw" (Some 1) None 1
      full_book_fetched = Some (results, w') ∧
    files w' !! pg200 = files full_book_fetched !! pg200.
Proof.
  apply (run_touches_only_selected (λ _, []) "data/raw" (Some 1) None 1
           full_book_fetched pg200).
  - vm_compute. discriminate.
  - intros k bid Hin.
    change (books_to_download (Some 1) None)
      with [("hugo_miserables_t1", 17489)] in Hin.
    apply list_elem_of_singleton in Hin as [= -> ->].
    vm_compute. discriminate.
Defined.

Lemma batch_records dir delay total i w items results w' :
  batch dir delay total i w items results w' →
  Forall (λ o, genre o = get_genre (key o) ∧ 0 ≤ file_size o ∧
               (download_success o = false ↔ file_path o = "")) results.
Proof.
  induction 1 as [i w|i w k bid w1 items results w' Hfetch _ IH
                  |i w k bid p content w1 items results w' Hfetch _ _ IH];
    constructor; try done; cbn.
  split; [done|]. split; [lia|]. split; [done|].
  intros ->. apply download_book_some in Hfetch.
  symmetry in Hfetch. by apply path_join_nonempty in Hfetch.
Qed.

(** X19.  Every record of a run is well formed: it stands for an entry of
    the catalog, its genre is the one [get_genre] gives its key, one of the
    three genres, its size is not negative, and its path is empty exactly
    when the download failed. *)
Theorem records_are_well_formed dir max_books genres delay w :
  ∃ results w',
    download_curated_corpus dir max_books genres delay w = Some (results, w') ∧
    Forall (λ o, (key o, book_id o) ∈ CURATED_BOOKS ∧
                 genre o = get_genre (key o) ∧ genre o ∈ GENRE_CHOICES ∧
                 0 ≤ file_size o ∧
                 (download_success o = false ↔ file_path o = "")) results.
Proof.
  destruct (download_curated_corpus_spec dir max_books genres delay w)
    as (results & w' & Hrun & Hbatch).
  exists results, w'. split; [done|].
  pose proof (batch_records _ _ _ _ _ _ _ _ Hbatch) as Hrec.
  apply batch_entries in Hbatch.
  apply Forall_forall. intros o Ho.
  rewrite Forall_forall in Hrec. destruct (Hrec o Ho) as (Hg & Hsize & Hpath).
  split.
  - apply (sublist_subseteq _ _ (books_to_download_sublist max_books genres)).
    rewrite <- Hbatch. apply list_elem_of_fmap. by exists o.
  - rewrite Hg. repeat split; try done; try apply Hpath. apply get_genre_choice.
Qed.

(** ** Running the batch twice *)

Lemma already_downloaded_lookup p w1 w2 :
  files w1 !! p = files w2 !! p →
  already_downloaded p w1 = already_downloaded p w2.
Proof.
  intros Hf. unfold already_downloaded, path_exists, st_size, bytes in *.
  by rewrite Hf.
Qed.

(** From a server that sends more than 1000 bytes every time, a fetch
    succeeds and leaves a file that the next fetch skips. *)
Lemma download_book_full_body id dir w :
  (∀ url n, ∃ c, remote w url n = Body c ∧ 1000 < Z.of_nat (length c)) →
  ∃ w1, download_book id dir 3 w = (Some (pg_path dir id), w1) ∧
        already_downloaded (pg_path dir id) w1 = true.
Proof.
  intros Hfull. unfold download_book.
  destruct (already_downloaded _ w) eqn:Hskip; [by exists w|].
  change (py_range 1 (3 + 1)) with [1; 2; 3]. cbn.
  destruct (Hfull (GUTENBERG_URL id) (sent w)) as (c & -> & Hlen).
  replace (Z.of_nat (length c) <? 500) with false
    by (symmetry; apply Z.ltb_ge; lia).
  eexists. split; [done|].
  apply already_downloaded_size. exists (Z.of_nat (length c)).
  split; [|done]. unfold st_size, write_bytes. cbn. by rewrite lookup_insert_eq.
Qed.

Lemma batch_remote dir delay total i w items results w' :
  batch dir delay total i w items results w' → remote w' = remote w.
Proof.
  assert (Hpause : ∀ i w1, remote (courtesy_delay i total delay w1) = remote w1).
  { intros j w1. unfold courtesy_delay. by destruct (_ && _). }
  induction 1 as [i w|i w k bid w1 items results w' Hfetch _ IH
                  |i w k bid p content w1 items results w' Hfetch _ _ IH];
    [done|..]; rewrite IH, Hpause; by eapply download_book_remote.
Qed.

Lemma batch_full_bodies dir delay total i w items results w' :
  batch dir delay total i w items results w' →
  NoDup (map snd items) →
  (∀ url n, ∃ c, remote w url n = Body c ∧ 1000 < Z.of_nat (length c)) →
  (∀ k bid, (k, bid) ∈ items → already_downloaded (pg_path dir bid) w' = true) ∧
  Forall (λ o, download_success o = true) results.
Proof.
  assert (Hpause : ∀ i w1, remote (courtesy_delay i total delay w1) = remote w1).
  { intros j w1. unfold courtesy_delay. by destruct (_ && _). }
  induction 1 as [i w|i w k bid w1 items results w' Hfetch Hrest IH
                  |i w k bid p content w1 items results w' Hfetch Hfile Hrest IH];
    intros Hnd Hfull.
  - split; [|done]. intros k bid Hin. by apply elem_of_nil in Hin.
  - destruct (download_book_full_body bid dir w Hfull) as (w2 & Hok & _).
    congruence.
  - cbn in Hnd. apply NoDup_cons in Hnd as [Hfresh Hnd].
    destruct IH as [Hpresent Hsucc]; [done| |].
    { rewrite Hpause, (download_book_remote _ _ _ _ _ _ Hfetch). done. }
    split; [|by constructor].
    intros k' bid' [[= -> ->]|Hin]%elem_of_cons; [|by eapply Hpresent].
    destruct (download_book_full_body bid dir w Hfull) as (w2 & Hok & Hthere).
    rewrite Hfetch in Hok. injection Hok as _ <-.
    rewrite <- Hthere. apply already_downloaded_lookup.
    rewrite <- (courtesy_delay_files i total delay w1).
    apply (batch_frame _ _ _ _ _ _ _ _ (pg_path dir bid) Hrest).
    intros k2 bid2 Hin Heq%pg_path_inj. subst bid2. apply Hfresh.
    apply list_elem_of_fmap. by exists (k2, bid).
Qed.

(** Records that are all successes with the sizes found in [wf] are
    determined by the items. *)
Lemma batch_successes_determined dir delay total i w items results w' wf
    results2 i2 w2 w2' :
  batch dir delay total i w items results w' →
  batch dir delay total i2 w2 items results2 w2' →
  Forall (λ o, download_success o = true ∧
               file_path o = pg_path dir (book_id o) ∧
               st_size (file_path o) wf = Some (file_size o)) results →
  Forall (λ o, download_success o = true ∧
               file_path o = pg_path dir (book_id o) ∧
               st_size (file_path o) wf = Some (file_size o)) results2 →
  results2 = results.
Proof.
  intros Hb. revert results2 i2 w2 w2'.
  induction Hb as [i w|i w k bid w1 items results w' Hfetch _ IH
                   |i w k bid p content w1 items results w' Hfetch _ _ IH];
    intros results2 i2 w2 w2' Hb2 H1 H2.
  - by inversion Hb2.
  - apply Forall_cons in H1 as [(Hs & _) _]. cbn in Hs. done.
  - apply Forall_cons in H1 as [(_ & Hp1 & Hs1) H1]. cbn in Hp1, Hs1.
    inversion Hb2 as [|? ? ? ? ? ? ? ? ? Hb2'|? ? ? ? p2 c2 ? ? r2 ? ? ? Hb2'];
      subst.
    + apply Forall_cons in H2 as [(Hs & _) _]. cbn in Hs. done.
    + apply Forall_cons in H2 as [(_ & Hp2 & Hs2) H2]. cbn in Hp2, Hs2.
      subst p2. rewrite Hs1 in Hs2. injection Hs2 as Hlen.
      rewrite Hlen. f_equal. by eapply IH.
Qed.

(** X20.  Running the batch twice: from a server that sends more than 1000
    bytes for every book, a first run records a success for every selected
    book, and a second run with the same arguments, started where the first
    one ended, returns the same records without sending a request or
    changing a file. *)
Theorem second_run_is_free dir max_books genres delay w :
  (∀ url n, ∃ c, remote w url n = Body c ∧ 1000 < Z.of_nat (length c)) →
  ∃ results w1 w2,
    download_curated_corpus dir max_books genres delay w = Some (results, w1) ∧
    Forall (λ o, download_success o = true) results ∧
    download_curated_corpus dir max_books genres delay w1 = Some (results, w2) ∧
    sent w2 = sent w1 ∧ files w2 = files w1.
Proof.
  intros Hfull.
  destruct (download_curated_corpus_spec dir max_books genres delay w)
    as (results & w1 & Hrun & Hbatch).
  destruct (download_curated_corpus_spec dir max_books genres delay w1)
    as (results2 & w2 & Hrun2 & Hbatch2).
  pose proof (books_to_download_ids_NoDup max_books genres) as Hnd.
  destruct (batch_full_bodies _ _ _ _ _ _ _ _ Hbatch Hnd Hfull)
    as [Hpresent Hsucc].
  destruct (batch_all_present _ _ _ _ _ _ _ _ Hbatch2 Hpresent)
    as (Hf & Hs & _ & Hrec2).
  pose proof (batch_sizes_on_disk _ _ _ _ _ _ _ _ Hbatch Hnd) as Hrec1.
  assert (Hsame : results2 = results).
  { eapply (batch_successes_determined _ _ _ _ _ _ _ _ w1); [done..| |done].
    rewrite Forall_forall in Hrec1, Hsucc. apply Forall_forall. intros o Ho.
    destruct (Hrec1 o Ho (Hsucc o Ho)). eauto. }
  subst results2. by exists results, w1, w2.
Qed.

Lemma second_run_is_free_witness :
  ∃ results w1 w2,
    download_curated_corpus "data/raw" (Some 2) None 1 full_book
      = Some (results, w1) ∧
    Forall (λ o, download_success o = true) results ∧
    download_curated_corpus "data/raw" (Some 2) None 1 w1 = Some (results, w2) ∧
    sent w2 = sent w1 ∧ files w2 = files w1.
Proof.
  apply (second_run_is_free "data/raw" (Some 2) None 1 full_book).
  intros url n. exists (replicate 2000 Byte.x00). split; [reflexivity|].
  vm_compute. reflexivity.
Defined.
